(** * The supervisor routing core of the IT-department agent graph

    A shallow embedding of [state.py], [agents/supervisor.py], the worker
    nodes of [agents/*.py] and the graph assembled in [graph.py], followed
    by the properties of the routing core.

    Conventions of the embedding.
    - Python text is a [string]; case folding and white space follow the
      ASCII tables ([str.lower], [str.strip], [\s]).
    - Python values coming out of the model's JSON are [pyval]s.
    - A Python call that may raise returns a [result].
    - What the program obtains from its collaborators (the JSON decoder,
      [str()] of a non-string, the iteration order of a [set], the value of
      [ITDEPT_MAX_ITERATIONS]) is an interface, [Host]; what it obtains from
      the models at run time (completions, agent transcripts, the clock) is
      a [world], indexed by the step of the graph. *)

From Stdlib Require Import ZArith String Ascii List SpecFloat Bool Lia.
From stdpp Require Import gmap strings list fin_maps pretty.

Set Warnings "-register-all".
#[local] Open Scope Z_scope.

(** ** Python values and exceptions *)

Inductive pyval : Type :=
  | PyNone
  | PyBool (b : bool)
  | PyInt (z : Z)
  | PyFloat (f : spec_float)
  | PyStr (s : string)
  | PyList (l : list pyval)
  | PyDict (d : list (string * pyval)).

(** A [dict] read from JSON keeps its insertion order: an association list
    with one binding per key. *)
Abbreviation pydict := (list (string * pyval)).

Fixpoint dict_get (d : pydict) (k : string) : option pyval :=
  match d with
  | [] => None
  | (k', v) :: d' => if String.eqb k' k then Some v else dict_get d' k
  end.

(** [d[k] = v] *)
Fixpoint dict_set (d : pydict) (k : string) (v : pyval) : pydict :=
  match d with
  | [] => [(k, v)]
  | (k', v') :: d' =>
      if String.eqb k' k then (k, v) :: d' else (k', v') :: dict_set d' k v
  end.

(** [d.get(k, default)] *)
Definition dict_get_default (d : pydict) (k : string) (default : pyval) : pyval :=
  match dict_get d k with
  | Some v => v
  | None => default
  end.

(** Truth value of a Python object, as [if x] and [not x] see it. *)
Definition truthy (v : pyval) : bool :=
  match v with
  | PyNone => false
  | PyBool b => b
  | PyInt z => negb (z =? 0)
  | PyFloat f => match f with S754_zero _ => false | _ => true end
  | PyStr s => negb (String.eqb s EmptyString)
  | PyList l => match l with [] => false | _ => true end
  | PyDict d => match d with [] => false | _ => true end
  end.

Inductive exn : Type :=
  | ValueError (msg : string)
  | AttributeError (msg : string)
  | TypeError (msg : string)
  | OtherError (type_name msg : string).

(** [type(e).__name__] and [str(e)] *)
Definition exn_name (e : exn) : string :=
  match e with
  | ValueError _ => "ValueError"
  | AttributeError _ => "AttributeError"
  | TypeError _ => "TypeError"
  | OtherError n _ => n
  end.

Definition exn_text (e : exn) : string :=
  match e with
  | ValueError m | AttributeError m | TypeError m | OtherError _ m => m
  end.

Inductive result (A : Type) : Type :=
  | Ok (a : A)
  | Raise (e : exn).
Arguments Ok {A} a.
Arguments Raise {A} e.

#[global] Instance result_ret : MRet result := fun _ a => Ok a.
#[global] Instance result_bind : MBind result := fun _ _ k r =>
  match r with
  | Ok a => k a
  | Raise e => Raise e
  end.

(** ** Text *)

(** The double quote, and a way to write JSON text with apostrophes. *)
Definition dquote : ascii := ascii_of_nat 34.

Fixpoint json_text (s : string) : string :=
  match s with
  | EmptyString => EmptyString
  | String c s' => String (if Ascii.eqb c "'" then dquote else c) (json_text s')
  end.

Module Text.

(** [str.isspace] on one character. *)
Definition is_space (c : ascii) : bool :=
  let n := nat_of_ascii c in
  ((9 <=? n)%nat && (n <=? 13)%nat) || ((28 <=? n)%nat && (n <=? 32)%nat).

Definition lower_char (c : ascii) : ascii :=
  let n := nat_of_ascii c in
  if ((65 <=? n)%nat && (n <=? 90)%nat) then ascii_of_nat (n + 32) else c.

(** [s.lower()] *)
Fixpoint lower (s : string) : string :=
  match s with
  | EmptyString => EmptyString
  | String c s' => String (lower_char c) (lower s')
  end.

Fixpoint lstrip_by (p : ascii -> bool) (s : string) : string :=
  match s with
  | EmptyString => EmptyString
  | String c s' => if p c then lstrip_by p s' else s
  end.

Fixpoint rstrip_by (p : ascii -> bool) (s : string) : string :=
  match s with
  | EmptyString => EmptyString
  | String c s' =>
      match rstrip_by p s' with
      | EmptyString => if p c then EmptyString else String c EmptyString
      | r => String c r
      end
  end.

(** [s.strip()] *)
Definition strip (s : string) : string := rstrip_by is_space (lstrip_by is_space s).

(** [s.strip(c)] for a one-character argument *)
Definition strip_char (c : ascii) (s : string) : string :=
  rstrip_by (Ascii.eqb c) (lstrip_by (Ascii.eqb c) s).

(** [sub in s] *)
Definition contains (sub s : string) : bool :=
  match String.index 0 sub s with
  | Some _ => true
  | None => false
  end.

(** [s.split(c)[0]] *)
Fixpoint before_char (c : ascii) (s : string) : string :=
  match s with
  | EmptyString => EmptyString
  | String a s' => if Ascii.eqb a c then EmptyString else String a (before_char c s')
  end.

(** [s[n:]] *)
Fixpoint drop (n : nat) (s : string) : string :=
  match n, s with
  | O, _ => s
  | S _, EmptyString => EmptyString
  | S n', String _ s' => drop n' s'
  end.

(** [s.startswith(p)] *)
Definition startswith (s p : string) : bool := String.prefix p s.

(** The text between the first occurrence of [fence] and the next
    triple backquote after it: group 1 of the fenced-block patterns, up
    to the white space that the caller strips. *)
Definition search_fenced (fence s : string) : option string :=
  match String.index 0 fence s with
  | Some i =>
      let start := (i + String.length fence)%nat in
      match String.index start "```" s with
      | Some k => Some (String.substring start (k - start) s)
      | None => None
      end
  | None => None
  end.

Definition is_brace (c : ascii) : bool := Ascii.eqb c "{" || Ascii.eqb c "}".

(** The longest run of characters other than braces, and what follows it. *)
Fixpoint span_nobrace (s : string) : string * string :=
  match s with
  | EmptyString => (EmptyString, EmptyString)
  | String c s' =>
      if is_brace c then (EmptyString, s)
      else let '(a, r) := span_nobrace s' in (String c a, r)
  end.

(** The third pattern, matched right after its opening brace: a run
    without braces, optionally one inner brace pair followed by another
    run without braces, and the closing brace. *)
Definition match_object_body (s : string) : option string :=
  let '(a, r) := span_nobrace s in
  match r with
  | String "}" _ => Some (a +:+ "}")
  | String "{" r1 =>
      let '(b, r2) := span_nobrace r1 in
      match r2 with
      | String "}" r3 =>
          let '(c, r4) := span_nobrace r3 in
          match r4 with
          | String "}" _ => Some (a +:+ "{" +:+ b +:+ "}" +:+ c +:+ "}")
          | _ => None
          end
      | _ => None
      end
  | _ => None
  end.

(** [re.search] with the third pattern: the leftmost opening brace from
    which the pattern matches, and the text it matches ([group(0)]). *)
Fixpoint search_object (s : string) : option string :=
  match s with
  | EmptyString => None
  | String c s' =>
      if Ascii.eqb c "{" then
        match match_object_body s' with
        | Some m => Some (String "{" m)
        | None => search_object s'
        end
      else search_object s'
  end.

(** The prefix of [s] that ends at the last occurrence of [c]. *)
Fixpoint upto_last (c : ascii) (s : string) : option string :=
  match s with
  | EmptyString => None
  | String a s' =>
      match upto_last c s' with
      | Some r => Some (String a r)
      | None => if Ascii.eqb a c then Some (String a EmptyString) else None
      end
  end.

(** [re.search] with the greedy pattern (brace, anything, brace): from the
    first opening brace to the last closing brace after it. *)
Fixpoint search_greedy (s : string) : option string :=
  match s with
  | EmptyString => None
  | String c s' =>
      if Ascii.eqb c "{" then
        match upto_last "}" s' with
        | Some r => Some (String "{" r)
        | None => None
        end
      else search_greedy s'
  end.

End Text.

(** ** What the program takes from its host

    [MAX_ITERATIONS] is read from the environment when [supervisor.py] is
    imported; [json_loads] is [json.loads], with [None] for a
    [JSONDecodeError]; [repr] is [str()] of a value that is not a string;
    [VALID_AGENTS_iter] is the order in which Python iterates over the set
    [VALID_AGENTS], which the language does not fix. *)

Definition VALID_AGENTS : gset string :=
  {[ "developer"; "qa"; "reviewer"; "devops"; "docs"; "FINISH" ]}.

Class Host := {
  MAX_ITERATIONS : Z;
  json_loads : string -> option pyval;
  repr : pyval -> string;
  VALID_AGENTS_iter : list string;
  VALID_AGENTS_iter_spec : ∀ a, a ∈ VALID_AGENTS_iter ↔ a ∈ VALID_AGENTS;
}.

(** [str(v)] *)
Definition str_of `{Host} (v : pyval) : string :=
  match v with
  | PyStr s => s
  | _ => repr v
  end.

Definition nl : string := String (ascii_of_nat 10) EmptyString.

(** ** state.py *)

Inductive msg_body : Type :=
  | TaskText (task : string)
  | PlanCreated (complexity plan thinking : pyval) (first_agent : string)
  | TaskDone (iteration : Z) (thinking : pyval)
  | RouteTo (next_agent : string) (iteration : Z) (reason instruction thinking : pyval)
  | AgentReport (status agent_name output : string).

(** The messages keep the values their text is formatted from. *)
Inductive message : Type :=
  | HumanMessage (content : msg_body) (name : option string)
  | AIMessage (content : msg_body).

Record routing_entry := {
  r_iteration : Z;
  r_agent : string;
  r_reason : pyval;
  r_timestamp : string;
}.

Record output_entry := {
  o_agent : string;
  o_output : string;
  o_status : string;
  o_timestamp : string;
  o_iteration : Z;
}.

(** [AgentState] is a [TypedDict] with [total=False]: a key read with
    [state.get] may be absent; [messages] is read with [state["messages"]]. *)
Record AgentState := {
  task : option string;
  repo_path : option string;
  messages : list message;
  plan : option pyval;
  next_agent : option string;
  current_instruction : option pyval;
  iteration : option Z;
  routing_history : option (list routing_entry);
  agent_outputs : option (list output_entry);
  artifacts : option (gmap string pyval);
  human_approved : option pyval;
  human_feedback : option pyval;
  final_summary : option pyval;
}.

(** ** agents/supervisor.py *)

Module Supervisor.
Section WithHost.
Context `{Host}.

(** Strategies 1 to 3 of [_parse_json_response]: the text handed to
    [json.loads]. *)
Definition extract_json_text (raw : string) : string :=
  let clean := Text.strip raw in
  match Text.search_fenced "```json" clean with
  | Some g => Text.strip g
  | None =>
      match Text.search_fenced "```" clean with
      | Some g => Text.strip g
      | None =>
          match Text.search_object clean with
          | Some g => Text.strip g
          | None => clean
          end
      end
  end.

(** The [try] around [json.loads], with the greedy pattern as last
    resort: the value of [data] after it ([None]: nothing was decoded). *)
Definition decode (clean : string) : option pyval :=
  match json_loads clean with
  | Some v => Some v
  | None =>
      match Text.search_greedy clean with
      | Some g => json_loads g
      | None => None
      end
  end.

Definition prefixes : list string := ["agente:"; "agent:"; "próximo:"; "next:"].

Definition strip_prefix (agent prefix : string) : string :=
  if Text.startswith (Text.lower agent) prefix
  then Text.strip (Text.drop (String.length prefix) agent)
  else agent.

(** The sanitisation of [next_agent]. *)
Definition sanitize_next_agent (v : pyval) : string :=
  let agent := Text.strip_char "'" (Text.strip_char dquote (Text.strip (str_of v))) in
  let agent :=
    if Text.contains "|" agent then Text.strip (Text.before_char "|" agent) else agent in
  let agent := fold_left strip_prefix prefixes agent in
  let agent := if String.eqb (Text.lower agent) "finish" then "FINISH" else agent in
  if decide (agent ∈ VALID_AGENTS) then agent
  else
    match find (fun v => Text.contains v (Text.lower agent)) VALID_AGENTS_iter with
    | Some matched => if String.eqb matched EmptyString then "FINISH" else matched
    | None => "FINISH"
    end.

Definition _parse_json_response (raw : string) : result pydict :=
  match decode (extract_json_text raw) with
  | None | Some PyNone =>
      Raise (ValueError ("Não foi possível parsear JSON da resposta:" +:+ nl
                         +:+ String.substring 0 500 raw))
  | Some (PyDict data) =>
      let agent := sanitize_next_agent (dict_get_default data "next_agent" (PyStr EmptyString)) in
      Ok (dict_set data "next_agent" (PyStr agent))
  | Some _ => Raise (AttributeError "object has no attribute 'get'")
  end.

(** *** [supervisor_node] *)

(** Phase 1 runs when [iteration == 0 or not plan]. *)
Definition planning_phase (state : AgentState) : bool :=
  let iteration0 := default 0 (iteration state) in
  let plan0 := default (PyStr EmptyString) (plan state) in
  (iteration0 =? 0) || negb (truthy plan0).

(** The plan used when the reply holds no JSON ([except ValueError as e]). *)
Definition fallback_plan (task : string) (e : exn) : pydict :=
  [ ("plan", PyStr ("Executar task: " +:+ task));
    ("first_agent", PyStr "developer");
    ("first_instruction", PyStr task);
    ("complexity", PyStr "medium");
    ("thinking", PyStr (exn_text e));
    ("estimated_steps", PyInt 3) ].

(** The decision used when the reply holds no JSON ([except ValueError]). *)
Definition fallback_decision : pydict :=
  [ ("next_agent", PyStr "FINISH");
    ("instruction", PyStr EmptyString);
    ("reason", PyStr "Erro ao parsear resposta do supervisor");
    ("thinking", PyStr "Encerrando por segurança");
    ("plan_update", PyNone) ].

(** [try: data = _parse_json_response(...) except ValueError: data = fallback] *)
Definition parse_or (fallback : exn -> pydict) (content : string) : result pydict :=
  match _parse_json_response content with
  | Ok data => Ok data
  | Raise (ValueError m) => Ok (fallback (ValueError m))
  | Raise e => Raise e
  end.

(** The sanitisation of [first_agent]: the value as read and trimmed, up to
    the first pipe. *)
Definition cleaned_first_agent (data : pydict) : string :=
  let first_agent :=
    Text.strip (str_of (dict_get_default data "first_agent" (PyStr "developer"))) in
  if Text.contains "|" first_agent
  then Text.strip (Text.before_char "|" first_agent) else first_agent.

Definition sanitize_first_agent (data : pydict) : string :=
  let first_agent := cleaned_first_agent data in
  let first_agent :=
    if String.eqb (Text.lower first_agent) "finish" then "developer" else first_agent in
  if decide (first_agent ∈ VALID_AGENTS ∖ {["FINISH"]}) then first_agent else "developer".

(** What the node gets when it builds the model and calls [llm.invoke]:
    [make_llm] raises, [invoke] raises, or a reply comes back. *)
Inductive llm_outcome : Type :=
  | LlmUnavailable (e : exn)
  | LlmFails (e : exn)
  | LlmReplies (content : string).

Definition invoke (llm : llm_outcome) : result string :=
  match llm with
  | LlmReplies content => Ok content
  | LlmFails e | LlmUnavailable e => Raise e
  end.

(** [h['reason'][:80]] needs a value that can be sliced. *)
Definition sliceable (v : pyval) : bool :=
  match v with
  | PyStr _ | PyList _ => true
  | _ => false
  end.

(** [_format_routing_history] formats the last eight entries. *)
Definition _format_routing_history (state : AgentState) : result unit :=
  let history := default [] (routing_history state) in
  let recent := drop (length history - 8) history in
  if forallb (fun h => sliceable (r_reason h)) recent then Ok tt
  else Raise (TypeError "object is not subscriptable").

Definition plan_step (state : AgentState) (content : string) : result AgentState :=
  let task0 := default EmptyString (task state) in
  data ← parse_or (fallback_plan task0) content;
  let first_agent := sanitize_first_agent data in
  let data := dict_set data "first_agent" (PyStr first_agent) in
  let new_message :=
    AIMessage (PlanCreated (dict_get_default data "complexity" (PyStr "?"))
                           (dict_get_default data "plan" (PyStr EmptyString))
                           (dict_get_default data "thinking" (PyStr EmptyString))
                           first_agent) in
  Ok {| task := state.(task);
        repo_path := state.(repo_path);
        messages := state.(messages) ++ [new_message];
        plan := Some (dict_get_default data "plan" (PyStr EmptyString));
        next_agent := Some first_agent;
        current_instruction := Some (dict_get_default data "first_instruction" (PyStr task0));
        iteration := Some 1;
        routing_history := Some [];
        agent_outputs := Some (default [] state.(agent_outputs));
        artifacts := Some (default ∅ state.(artifacts));
        human_approved := state.(human_approved);
        human_feedback := state.(human_feedback);
        final_summary := state.(final_summary) |}.

(** [data.get("next_agent", "FINISH")]: after [_parse_json_response] and
    in the fallback the key holds a string (see [parse_next_agent] below),
    so the last branch is never taken. *)
Definition decided_agent (data : pydict) : string :=
  match dict_get data "next_agent" with
  | None => "FINISH"
  | Some (PyStr a) => a
  | Some v => str_of v
  end.

Definition route_step (state : AgentState) (content now : string) : result AgentState :=
  let iteration0 := default 0 (iteration state) in
  let plan0 := default (PyStr EmptyString) (plan state) in
  data ← parse_or (fun _ => fallback_decision) content;
  let agent := decided_agent data in
  let instruction := dict_get_default data "instruction" (PyStr EmptyString) in
  let reason := dict_get_default data "reason" (PyStr EmptyString) in
  let thinking := dict_get_default data "thinking" (PyStr EmptyString) in
  let plan_update := dict_get_default data "plan_update" PyNone in
  let history :=
    default [] (routing_history state)
    ++ [ {| r_iteration := iteration0; r_agent := agent;
            r_reason := reason; r_timestamp := now |} ] in
  let new_message :=
    if String.eqb agent "FINISH"
    then AIMessage (TaskDone iteration0 thinking)
    else AIMessage (RouteTo agent iteration0 reason instruction thinking) in
  let updated_plan := if truthy plan_update then plan_update else plan0 in
  Ok {| task := state.(task);
        repo_path := state.(repo_path);
        messages := state.(messages) ++ [new_message];
        plan := Some updated_plan;
        next_agent := Some agent;
        current_instruction := Some instruction;
        iteration := Some (iteration0 + 1);
        routing_history := Some history;
        agent_outputs := state.(agent_outputs);
        artifacts := state.(artifacts);
        human_approved := state.(human_approved);
        human_feedback := state.(human_feedback);
        final_summary := state.(final_summary) |}.

Definition supervisor_node (state : AgentState) (llm : llm_outcome) (now : string)
  : result AgentState :=
  match llm with
  | LlmUnavailable e => Raise e
  | _ =>
      if planning_phase state then
        content ← invoke llm;
        plan_step state content
      else
        _ ← _format_routing_history state;
        content ← invoke llm;
        route_step state content now
  end.

(** *** [route_after_supervisor] *)

(** [langgraph.graph.END] *)
Definition END : string := "__end__".

Definition valid_agents : gset string :=
  {[ "developer"; "qa"; "reviewer"; "devops"; "docs" ]}.

Definition route_after_supervisor (state : AgentState) : string :=
  let agent := default "FINISH" (next_agent state) in
  let iteration0 := default 0 (iteration state) in
  if iteration0 >? MAX_ITERATIONS then END
  else if String.eqb agent "FINISH" then END
  else if decide (agent ∈ valid_agents) then agent
  else END.

(** *** [record_agent_output] *)

(** The dictionary of updates the helper returns. *)
Record updates := {
  u_agent_outputs : list output_entry;
  u_artifacts : gmap string pyval;
  u_messages : list message;
}.

Definition record_agent_output (state : AgentState) (agent_name output status : string)
    (new_artifacts : option (gmap string pyval)) (now : string) : updates :=
  let entry :=
    {| o_agent := agent_name; o_output := output; o_status := status;
       o_timestamp := now; o_iteration := default 0 (iteration state) |} in
  let updated_outputs := default [] (agent_outputs state) ++ [entry] in
  let old_artifacts := default ∅ state.(artifacts) in
  let updated_artifacts :=
    match new_artifacts with
    | Some a => if decide (a = ∅) then old_artifacts else a ∪ old_artifacts
    | None => old_artifacts
    end in
  let message := HumanMessage (AgentReport status agent_name output) (Some agent_name) in
  {| u_agent_outputs := updated_outputs;
     u_artifacts := updated_artifacts;
     u_messages := state.(messages) ++ [message] |}.

(** [{**state, **updates}] *)
Definition with_updates (state : AgentState) (u : updates) : AgentState :=
  {| task := state.(task);
     repo_path := state.(repo_path);
     messages := u.(u_messages);
     plan := state.(plan);
     next_agent := state.(next_agent);
     current_instruction := state.(current_instruction);
     iteration := state.(iteration);
     routing_history := state.(routing_history);
     agent_outputs := Some u.(u_agent_outputs);
     artifacts := Some u.(u_artifacts);
     human_approved := state.(human_approved);
     human_feedback := state.(human_feedback);
     final_summary := state.(final_summary) |}.

End WithHost.
End Supervisor.

(** ** agents/developer.py, qa.py, reviewer.py, devops.py, docs.py *)

Module Agents.
Section WithHost.
Context `{Host}.
Import Supervisor.

Inductive worker : Type := developer | qa | reviewer | devops | docs.

Definition worker_name (w : worker) : string :=
  match w with
  | developer => "developer"
  | qa => "qa"
  | reviewer => "reviewer"
  | devops => "devops"
  | docs => "docs"
  end.

Definition worker_title (w : worker) : string :=
  match w with
  | developer => "Developer"
  | qa => "QA"
  | reviewer => "Reviewer"
  | devops => "DevOps"
  | docs => "Docs"
  end.

(** What the [try] block of a worker node yields: the ReAct agent ran to
    its final message, from which the node derived a status and its
    artifacts, or something in the block raised. *)
Inductive agent_outcome : Type :=
  | AgentDone (output status : string) (found : gmap string pyval)
  | AgentRaise (e : exn).

(** The [except Exception as e] branch. *)
Definition error_output (w : worker) (e : exn) : string :=
  "❌ Erro no " +:+ worker_title w +:+ " Agent: " +:+ exn_name e +:+ ": " +:+ exn_text e.

Definition error_artifacts (w : worker) : gmap string pyval :=
  match w with
  | reviewer => {[ "review_verdict" := PyStr "ERROR"; "review_done" := PyBool false ]}
  | _ => ∅
  end.

(** [for f in changed_files] needs something to iterate over. *)
Definition iterable (v : pyval) : bool :=
  match v with
  | PyStr _ | PyList _ | PyDict _ => true
  | _ => false
  end.

(** [f.endswith(".py") for f in changed_files] needs strings. *)
Definition all_strings (v : pyval) : bool :=
  match v with
  | PyList l => forallb (fun f => match f with PyStr _ => true | _ => false end) l
  | _ => true
  end.

(** The part of the prompt built from [artifacts["files_changed"]], which
    [qa_node], [reviewer_node] and [docs_node] compute before their [try]. *)
Definition changed_ctx (w : worker) (state : AgentState) : result unit :=
  let changed_files :=
    default (PyList []) (default ∅ state.(artifacts) !! "files_changed") in
  match w with
  | developer | devops => Ok tt
  | qa | reviewer =>
      if negb (truthy changed_files) || iterable changed_files then Ok tt
      else Raise (TypeError "object is not iterable")
  | docs =>
      if negb (truthy changed_files) then Ok tt
      else if negb (iterable changed_files) then Raise (TypeError "object is not iterable")
      else if all_strings changed_files then Ok tt
      else Raise (AttributeError "object has no attribute 'endswith'")
  end.

(** The report a node hands to [record_agent_output]. *)
Definition report_of (w : worker) (o : agent_outcome)
  : string * string * gmap string pyval :=
  match o with
  | AgentDone output status found => (output, status, found)
  | AgentRaise e => (error_output w e, "error", error_artifacts w)
  end.

(** [developer_node], [qa_node], [reviewer_node], [devops_node], [docs_node] *)
Definition worker_node (w : worker) (state : AgentState) (o : agent_outcome) (now : string)
  : result AgentState :=
  _ ← changed_ctx w state;
  let '(output, status, found) := report_of w o in
  let updates :=
    record_agent_output state (worker_name w) output status (Some found) now in
  Ok (with_updates state updates).

Definition developer_node := worker_node developer.
Definition qa_node := worker_node qa.
Definition reviewer_node := worker_node reviewer.
Definition devops_node := worker_node devops.
Definition docs_node := worker_node docs.

End WithHost.
End Agents.

(** ** graph.py *)

Module Graph.
Section WithHost.
Context `{Host}.
Import Supervisor Agents.

(** [create_initial_state], given the resolved path of the repository. *)
Definition create_initial_state (task0 resolved : string) : AgentState :=
  {| task := Some task0;
     repo_path := Some resolved;
     messages := [HumanMessage (TaskText task0) None];
     plan := Some (PyStr EmptyString);
     next_agent := Some EmptyString;
     current_instruction := Some (PyStr EmptyString);
     iteration := Some 0;
     routing_history := Some [];
     agent_outputs := Some [];
     artifacts := Some ∅;
     human_approved := Some PyNone;
     human_feedback := Some PyNone;
     final_summary := Some PyNone |}.

Inductive node : Type :=
  | supervisor
  | agent (w : worker).

(** The path map of [add_conditional_edges]: a worker node or [END]. *)
Definition path_map (name : string) : option (option worker) :=
  if String.eqb name "developer" then Some (Some developer)
  else if String.eqb name "qa" then Some (Some qa)
  else if String.eqb name "reviewer" then Some (Some reviewer)
  else if String.eqb name "devops" then Some (Some devops)
  else if String.eqb name "docs" then Some (Some docs)
  else if String.eqb name END then Some None
  else None.

Definition written {A} (new old : option A) : option A :=
  match new with
  | Some v => Some v
  | None => old
  end.

(** The graph writes the dictionary a node returns into the channels of
    the state: [messages] and [agent_outputs] are annotated with
    [operator.add] in [state.py], so the returned list is added to the
    stored one; every other key is overwritten. *)
Definition commit (old ret : AgentState) : AgentState :=
  {| task := written ret.(task) old.(task);
     repo_path := written ret.(repo_path) old.(repo_path);
     messages := old.(messages) ++ ret.(messages);
     plan := written ret.(plan) old.(plan);
     next_agent := written ret.(next_agent) old.(next_agent);
     current_instruction := written ret.(current_instruction) old.(current_instruction);
     iteration := written ret.(iteration) old.(iteration);
     routing_history := written ret.(routing_history) old.(routing_history);
     agent_outputs :=
       Some (default [] old.(agent_outputs) ++ default [] ret.(agent_outputs));
     artifacts := written ret.(artifacts) old.(artifacts);
     human_approved := written ret.(human_approved) old.(human_approved);
     human_feedback := written ret.(human_feedback) old.(human_feedback);
     final_summary := written ret.(final_summary) old.(final_summary) |}.

(** What the collaborators answer at each step of a run. *)
Record world := {
  llm_at : nat -> llm_outcome;
  agent_at : nat -> agent_outcome;
  clock : nat -> string;
}.

(** One executed node: the state it read, the dictionary it returned and
  the state after the write. *)
Record step := {
  at_node : node;
  before : AgentState;
  returned : AgentState;
  after : AgentState;
}.

Inductive outcome : Type :=
  | Final (state : AgentState)
  | Crashed (e : exn)
  | Unfinished (n : node) (state : AgentState).

(** [graph.stream]: the supervisor is the entry point, its conditional
    edge follows [route_after_supervisor], every worker returns to the
    supervisor. [fuel] bounds the number of nodes executed. *)
Fixpoint run (w : world) (fuel k : nat) (n : node) (state : AgentState)
    (log : list step) : outcome * list step :=
  match fuel with
  | O => (Unfinished n state, log)
  | S fuel' =>
      match n with
      | supervisor =>
          match supervisor_node state (llm_at w k) (clock w k) with
          | Raise e => (Crashed e, log)
          | Ok ret =>
              let state' := commit state ret in
              let log' :=
              log ++ [ {| at_node := n; before := state; returned := ret; after := state' |} ] in
              match path_map (route_after_supervisor state') with
              | Some (Some next) => run w fuel' (S k) (agent next) state' log'
              | Some None => (Final state', log')
              | None => (Crashed (OtherError "KeyError" (route_after_supervisor state')), log')
              end
          end
      | agent a =>
          match worker_node a state (agent_at w k) (clock w k) with
          | Raise e => (Crashed e, log)
          | Ok ret =>
              let state' := commit state ret in
              let log' :=
              log ++ [ {| at_node := n; before := state; returned := ret; after := state' |} ] in
              run w fuel' (S k) supervisor state' log'
          end
      end
  end.

(** [run_task] *)
Definition run_task (task0 resolved : string) (w : world) (fuel : nat)
  : outcome * list step :=
  run w fuel 0 supervisor (create_initial_state task0 resolved) [].

(** *** Counting over the steps of a run *)

Definition is_supervisor (st : step) : bool :=
  match at_node st with supervisor => true | agent _ => false end.

(** The calls of the supervisor that took the routing phase. *)
Definition routing_calls (log : list step) : nat :=
  length (List.filter (fun st => is_supervisor st && negb (planning_phase (before st))) log).

(** The decisions of the supervisor, planning included, that name a
    worker rather than [FINISH]. *)
Definition non_terminal_decisions (log : list step) : nat :=
  length (List.filter (fun st => is_supervisor st
                           && negb (String.eqb (default "FINISH" (next_agent (after st))) "FINISH"))
                 log).

(** The worker nodes executed. *)
Definition dispatches (log : list step) : nat :=
  length (List.filter (fun st => negb (is_supervisor st)) log).

(** The decisions of the supervisor after which the conditional edge leads
    to a worker. *)
Definition dispatching_decisions (log : list step) : nat :=
  length (List.filter (fun st => is_supervisor st
                               && negb (String.eqb (route_after_supervisor (after st)) END))
                      log).

(** What a node does to [agent_outputs]: a worker returns the list it read
    with one entry of its own appended, the supervisor returns the list it
    read. *)
Definition appends_one (st : step) : Prop :=
  match at_node st with
  | supervisor =>
      default [] (agent_outputs (returned st)) = default [] (agent_outputs (before st))
  | agent a =>
      ∃ entry, agent_outputs (returned st)
               = Some (default [] (agent_outputs (before st)) ++ [entry])
               ∧ o_agent entry = worker_name a
  end.

(** A worker was dispatched with [iteration] at most the ceiling. *)
Definition dispatched_below_ceiling (st : step) : Prop :=
  ∀ a, at_node st = agent a → default 0 (iteration (before st)) ≤ MAX_ITERATIONS.

Definition state_of (o : outcome) : option AgentState :=
  match o with
  | Final state | Unfinished _ state => Some state
  | Crashed _ => None
  end.

(** The entries of a routing history carry strictly increasing iterations. *)
Definition increasing (history : list routing_entry) : Prop :=
  ∀ i j ei ej, (i < j)%nat → history !! i = Some ei → history !! j = Some ej →
               r_iteration ei < r_iteration ej.

(** What the steps of a run keep true of the routing history. *)
Definition history_invariant (state : AgentState) (log : list step) : Prop :=
  ∃ history i,
    routing_history state = Some history
    ∧ iteration state = Some i ∧ 0 ≤ i
    ∧ length history = routing_calls log
    ∧ Forall (fun e => r_iteration e < i) history
    ∧ increasing history
    ∧ (history ≠ [] → planning_phase state = false).

End WithHost.
End Graph.

(** ** A host to run the embedding on

    [Fragment.loads] decodes the JSON fragment the examples below need
    (objects, arrays, strings with the one-character escapes, integers and
    the three literals) as [json.loads] does; text outside the fragment
    (fractions, exponents, [\u] escapes) is not decoded. The theorems hold
    for every [Host]; this one only instantiates them. *)

Module Fragment.

Definition is_ws (c : ascii) : bool :=
  Ascii.eqb c " " || Ascii.eqb c (ascii_of_nat 9)
  || Ascii.eqb c (ascii_of_nat 10) || Ascii.eqb c (ascii_of_nat 13).

Definition skip_ws (s : string) : string := Text.lstrip_by is_ws s.

Definition is_digit (c : ascii) : bool :=
  let n := nat_of_ascii c in ((48 <=? n)%nat && (n <=? 57)%nat).

Fixpoint span_digits (s : string) : string * string :=
  match s with
  | EmptyString => (EmptyString, EmptyString)
  | String c s' =>
      if is_digit c then let '(a, r) := span_digits s' in (String c a, r)
      else (EmptyString, s)
  end.

Fixpoint digits_value (acc : Z) (s : string) : Z :=
  match s with
  | EmptyString => acc
  | String c s' => digits_value (10 * acc + Z.of_nat (nat_of_ascii c - 48)) s'
  end.

(** An integer: [0] or a digit run without leading zero, not followed by
    a fraction or an exponent. *)
Definition json_int (s : string) : option (Z * string) :=
  let '(ds, r) := span_digits s in
  match ds with
  | EmptyString => None
  | String d ds' =>
      let rest := if Ascii.eqb d "0" then String.append ds' r else r in
      match rest with
      | String c _ =>
          if Ascii.eqb c "." || Ascii.eqb c "e" || Ascii.eqb c "E" then None
          else Some (digits_value 0 (if Ascii.eqb d "0" then "0" else ds), rest)
      | EmptyString => Some (digits_value 0 (if Ascii.eqb d "0" then "0" else ds), rest)
      end
  end.

Definition unescape (c : ascii) : option ascii :=
  if Ascii.eqb c dquote then Some dquote
  else if Ascii.eqb c "\" then Some "\"%char
  else if Ascii.eqb c "/" then Some "/"%char
  else if Ascii.eqb c "b" then Some (ascii_of_nat 8)
  else if Ascii.eqb c "f" then Some (ascii_of_nat 12)
  else if Ascii.eqb c "n" then Some (ascii_of_nat 10)
  else if Ascii.eqb c "r" then Some (ascii_of_nat 13)
  else if Ascii.eqb c "t" then Some (ascii_of_nat 9)
  else None.

(** The characters of a string literal after its opening quote. *)
Fixpoint json_string (fuel : nat) (s : string) : option (string * string) :=
  match fuel, s with
  | O, _ | _, EmptyString => None
  | S fuel', String c r =>
      if Ascii.eqb c dquote then Some (EmptyString, r)
      else if Ascii.eqb c "\" then
        match r with
        | String e r' =>
            match unescape e, json_string fuel' r' with
            | Some c', Some (body, rest) => Some (String c' body, rest)
            | _, _ => None
            end
        | EmptyString => None
        end
      else if (nat_of_ascii c <? 32)%nat then None
      else
        match json_string fuel' r with
        | Some (body, rest) => Some (String c body, rest)
        | None => None
        end
  end.

Definition literal (word : string) (v : pyval) (s : string) : option (pyval * string) :=
  if String.prefix word s then Some (v, Text.drop (String.length word) s) else None.

Fixpoint json_value (fuel : nat) (s : string) : option (pyval * string) :=
  match fuel with
  | O => None
  | S fuel' =>
      match skip_ws s with
      | EmptyString => None
      | String c r as s1 =>
          if Ascii.eqb c "n" then literal "null" PyNone s1
          else if Ascii.eqb c "t" then literal "true" (PyBool true) s1
          else if Ascii.eqb c "f" then literal "false" (PyBool false) s1
          else if Ascii.eqb c dquote then
            match json_string fuel' r with
            | Some (body, rest) => Some (PyStr body, rest)
            | None => None
            end
          else if Ascii.eqb c "-" then
            match json_int r with
            | Some (z, rest) => Some (PyInt (- z), rest)
            | None => None
            end
          else if is_digit c then
            match json_int s1 with
            | Some (z, rest) => Some (PyInt z, rest)
            | None => None
            end
          else if Ascii.eqb c "[" then
            match skip_ws r with
            | String "]" rest => Some (PyList [], rest)
            | _ => json_elements fuel' r []
            end
          else if Ascii.eqb c "{" then
            match skip_ws r with
            | String "}" rest => Some (PyDict [], rest)
            | _ => json_members fuel' r []
            end
          else None
      end
  end
with json_elements (fuel : nat) (s : string) (acc : list pyval) : option (pyval * string) :=
  match fuel with
  | O => None
  | S fuel' =>
      match json_value fuel' s with
      | Some (v, rest) =>
          match skip_ws rest with
          | String "," rest' => json_elements fuel' rest' (acc ++ [v])
          | String "]" rest' => Some (PyList (acc ++ [v]), rest')
          | _ => None
          end
      | None => None
      end
  end
with json_members (fuel : nat) (s : string) (acc : pydict) : option (pyval * string) :=
  match fuel with
  | O => None
  | S fuel' =>
      match skip_ws s with
      | String c r =>
          if Ascii.eqb c dquote then
            match json_string fuel' r with
            | Some (key, rest) =>
                match skip_ws rest with
                | String ":" rest1 =>
                    match json_value fuel' rest1 with
                    | Some (v, rest2) =>
                        match skip_ws rest2 with
                        | String "," rest3 => json_members fuel' rest3 (dict_set acc key v)
                        | String "}" rest3 => Some (PyDict (dict_set acc key v), rest3)
                        | _ => None
                        end
                    | None => None
                    end
                | _ => None
                end
            | None => None
            end
          else None
      | EmptyString => None
      end
  end.

(** [json.loads]: one value, white space around it, nothing else. *)
Definition loads (s : string) : option pyval :=
  match json_value (2 * String.length s + 2) s with
  | Some (v, rest) =>
      match skip_ws rest with
      | EmptyString => Some v
      | _ => None
      end
  | None => None
  end.

(** [str()] of the scalars; containers print their elements in order. *)
Fixpoint py_repr (v : pyval) : string :=
  match v with
  | PyNone => "None"
  | PyBool true => "True"
  | PyBool false => "False"
  | PyInt z => pretty z
  | PyFloat (S754_zero false) => "0.0"
  | PyFloat (S754_zero true) => "-0.0"
  | PyFloat (S754_infinity false) => "inf"
  | PyFloat (S754_infinity true) => "-inf"
  | PyFloat _ => "nan"
  | PyStr s => "'" +:+ s +:+ "'"
  | PyList l =>
      "[" +:+ String.concat ", " (List.map py_repr l) +:+ "]"
  | PyDict d =>
      "{" +:+ String.concat ", "
                (List.map (fun kv => "'" +:+ fst kv +:+ "': " +:+ py_repr (snd kv)) d) +:+ "}"
  end.

Definition agents_order : list string :=
  ["developer"; "qa"; "reviewer"; "devops"; "docs"; "FINISH"].

Lemma agents_order_spec : ∀ a, a ∈ agents_order ↔ a ∈ VALID_AGENTS.
Proof.
  intros a. unfold agents_order, VALID_AGENTS.
  rewrite !elem_of_cons, !elem_of_union, !elem_of_singleton, elem_of_nil.
  tauto.
Qed.

Definition host (ceiling : Z) : Host := {|
  MAX_ITERATIONS := ceiling;
  json_loads := loads;
  repr := py_repr;
  VALID_AGENTS_iter := agents_order;
  VALID_AGENTS_iter_spec := agents_order_spec;
|}.

End Fragment.

(** ** Worlds and states to run the embedding on *)

Module Demo.
Import Supervisor Agents Graph.

Definition plan_reply : string :=
  json_text "{'plan': '1. validate 2. test', 'first_agent': 'developer', 'first_instruction': 'add checks to parse_config'}".

Definition qa_reply : string :=
  json_text "```json {'next_agent': 'qa', 'instruction': 'run pytest', 'reason': 'new code'} ```".

Definition docs_reply : string :=
  json_text "{'next_agent': 'docs', 'instruction': 'update README', 'reason': 'document it'}".

Definition finish_reply : string :=
  json_text "{'next_agent': 'FINISH', 'instruction': '', 'reason': 'all done'}".

Definition developer_reply : string :=
  json_text "{'next_agent': 'developer', 'instruction': 'fix the tests', 'reason': 'tests still fail'}".

Definition patched : agent_outcome :=
  AgentDone "patched `config.py`" "success"
    {[ "files_changed" := PyList [PyStr "config.py"] ]}.

Definition tool_failure : exn := OtherError "RuntimeError" "tool loop failed".

Definition timeout : exn := OtherError "APITimeoutError" "Request timed out.".

(** The plan, a developer, a qa agent whose loop raises, then [FINISH]. *)
Definition finishing : world := {|
  llm_at k :=
    match k with
    | 0%nat => LlmReplies plan_reply
    | 2%nat => LlmReplies qa_reply
    | _ => LlmReplies finish_reply
    end;
  agent_at k :=
    match k with
    | 1%nat => patched
    | _ => AgentRaise tool_failure
    end;
  clock k := pretty k;
|}.

(** The plan, then a model that never answers [FINISH]. *)
Definition busy : world := {|
  llm_at k :=
    match k with
    | 0%nat => LlmReplies plan_reply
    | 2%nat => LlmReplies qa_reply
    | _ => LlmReplies docs_reply
    end;
  agent_at k := patched;
  clock k := pretty k;
|}.

(** A completion service that times out on the first call. *)
Definition unreachable : world := {|
  llm_at k := LlmFails timeout;
  agent_at k := patched;
  clock k := pretty k;
|}.

(** A state in the routing phase whose [iteration] is the default ceiling. *)
Definition at_ceiling : AgentState := {|
  task := Some "add input validation to parse_config";
  repo_path := Some "/repo";
  messages := [HumanMessage (TaskText "add input validation to parse_config") None];
  plan := Some (PyStr "1. validate 2. test");
  next_agent := Some "qa";
  current_instruction := Some (PyStr "run pytest");
  iteration := Some 12;
  routing_history :=
    Some [ {| r_iteration := 11; r_agent := "qa"; r_reason := PyStr "new code";
              r_timestamp := "11" |} ];
  agent_outputs := Some [];
  artifacts := Some ∅;
  human_approved := Some PyNone;
  human_feedback := Some PyNone;
  final_summary := Some PyNone;
|}.

(** The host with the default ceiling, and one with a ceiling of two. *)
Definition default_host : Host := Fragment.host 12.

Definition low_host : Host := Fragment.host 2.

End Demo.

(** ** More of the program: prompt text, status inference, the path guard *)

Module TextMore.

Definition upper_char (c : ascii) : ascii :=
  let n := nat_of_ascii c in
  if ((97 <=? n)%nat && (n <=? 122)%nat) then ascii_of_nat (n - 32) else c.

(** [s.upper()] *)
Fixpoint upper (s : string) : string :=
  match s with
  | EmptyString => EmptyString
  | String c s' => String (upper_char c) (upper s')
  end.

(** [s.count(sub)] for a non-empty [sub]: occurrences that do not overlap,
    counted from the left; [skip] characters of the last occurrence are
    still to pass. *)
Fixpoint count_from (skip : nat) (sub s : string) : nat :=
  match s with
  | EmptyString => 0
  | String _ s' =>
      match skip with
      | S k => count_from k sub s'
      | O =>
          if String.prefix sub s
          then S (count_from (String.length sub - 1) sub s')
          else count_from 0 sub s'
      end
  end.

Definition count (sub s : string) : nat := count_from 0 sub s.

(** [any(kw in s for kw in keywords)] *)
Definition any_in (keywords : list string) (s : string) : bool :=
  existsb (fun kw => Text.contains kw s) keywords.

End TextMore.

(** *** [_format_agent_outputs] of agents/supervisor.py *)

Module Prompt.
Import TextMore.

Definition status_icon (status : string) : string :=
  if String.eqb status "success" then "✅"
  else if String.eqb status "warning" then "⚠️"
  else "❌".

(** One block of the text: icon, agent in capitals, time, and the output cut
    to 800 characters. *)
Definition format_output (entry : output_entry) : string :=
  status_icon (o_status entry) +:+ " [" +:+ upper (o_agent entry) +:+ "] "
  +:+ o_timestamp entry +:+ nl +:+ String.substring 0 800 (o_output entry) +:+ nl.

(** [reversed(outputs[-6:])] *)
Definition recent_outputs (outputs : list output_entry) : list output_entry :=
  rev (drop (length outputs - 6) outputs).

Definition _format_agent_outputs (state : AgentState) : string :=
  let outputs := default [] state.(agent_outputs) in
  match outputs with
  | [] => "  (nenhum output ainda)"
  | _ => String.concat nl (format_output <$> recent_outputs outputs)
  end.

End Prompt.

(** *** Status inference of the worker nodes *)

Module Status.
Import TextMore.
Section WithLower.

(** [str.lower], which follows the Unicode tables of the interpreter. *)
Variable lower : string -> string.

(** agents/developer.py *)
Definition error_keywords : list string :=
  ["erro"; "error"; "falha"; "failed"; "exception"; "traceback";
   "não foi possível"; "could not"].

Definition warning_keywords : list string :=
  ["aviso"; "warning"; "atenção"; "cuidado"; "parcialmente"; "incompleto"].

Definition _infer_status (output : string) : string :=
  let output_lower := lower output in
  if any_in error_keywords output_lower
     && ((2 <? count "erro" output_lower)%nat || Text.contains "❌" output)
  then "error"
  else if any_in warning_keywords output_lower then "warning"
  else "success".

(** agents/qa.py *)
Definition critical : list string :=
  ["failed"; "error"; " 0%"; "syntax error"; "import error"].

Definition warnings : list string :=
  ["warning"; "aviso"; "abaixo"; "faltando"; "missing"].

Definition _infer_qa_status (output : string) : string :=
  let lower := lower output in
  if any_in critical lower
     && negb (Text.contains "passed" lower && negb (Text.contains "failed" lower))
  then "error"
  else if any_in warnings lower then "warning"
  else "success".

(** agents/reviewer.py; [a or b and c] reads [a or (b and c)]. *)
Definition _infer_review_verdict (output : string) : string * string :=
  let lower := lower output in
  if Text.contains "reprovado" lower
     || (Text.contains "❌" output && Text.contains "reprovado" lower)
  then ("error", "REPROVADO")
  else if Text.contains "precisa de ajustes" lower
          || (Text.contains "⚠️" output && Text.contains "ajustes" lower)
  then ("warning", "PRECISA_AJUSTES")
  else if Text.contains "aprovado" lower
          || (Text.contains "✅" output && Text.contains "aprovado" lower)
  then ("success", "APROVADO")
  else ("warning", "INCONCLUSIVO").

End WithLower.
End Status.

(** *** The path guard of tools/filesystem.py *)

Module Filesystem.

(** [_safe_path]: [resolved] is the text of
    [(ALLOWED_BASE_PATH / raw).resolve()], which the file system decides. *)
Definition _safe_path (resolve : string -> string -> string)
    (ALLOWED_BASE_PATH raw : string) : result string :=
  let path := resolve ALLOWED_BASE_PATH raw in
  if Text.startswith path ALLOWED_BASE_PATH then Ok path
  else Raise (ValueError ("Acesso negado: '" +:+ raw
                          +:+ "' está fora do workspace permitido ("
                          +:+ ALLOWED_BASE_PATH +:+ ")."))%string.

(** The text of a resolved directory ends in a separator only for the
    root. *)
Fixpoint ends_with_sep (s : string) : bool :=
  match s with
  | EmptyString => false
  | String c EmptyString => Ascii.eqb c "/"
  | String _ s' => ends_with_sep s'
  end.

(** A path is under a directory when it is the directory or continues it
    after a separator. *)
Definition under (base path : string) : Prop :=
  path = base
  ∨ String.prefix (if ends_with_sep base then base else base +:+ "/") path = true.

(** [Path.resolve] on a tree without symbolic links: the segments of
    [base / raw], an absolute [raw] replacing the base, with [.] dropped
    and [..] stepping up. *)
Fixpoint segments_from (cur s : string) : list string :=
  match s with
  | EmptyString => [cur]
  | String c s' =>
      if Ascii.eqb c "/" then cur :: segments_from EmptyString s'
      else segments_from (cur +:+ String c EmptyString) s'
  end.

Definition segments (s : string) : list string := segments_from EmptyString s.

Definition walk (stack : list string) (seg : string) : list string :=
  if String.eqb seg EmptyString || String.eqb seg "." then stack
  else if String.eqb seg ".." then removelast stack
  else stack ++ [seg].

Definition lexical_resolve (base raw : string) : string :=
  let segs :=
    if Text.startswith raw "/" then segments raw else segments base ++ segments raw in
  "/" +:+ String.concat "/" (fold_left walk segs []).

End Filesystem.

(** *** Well-formed [files_changed] and more worlds *)

Module More.
Import Supervisor Agents Graph.

(** What [developer_node] stores under [files_changed], the only writer of
    the key: a list of strings, or nothing. *)
Definition files_listed (found : gmap string pyval) : Prop :=
  found !! "files_changed" = None
  ∨ ∃ names, found !! "files_changed" = Some (PyList (PyStr <$> names)).

Definition files_well_formed (state : AgentState) : Prop :=
  files_listed (default ∅ state.(artifacts)).

(** JSON [null], [true], [false] and numbers: values that [v[:80]] rejects
    with a [TypeError]. *)
Definition scalar (v : pyval) : bool :=
  match v with
  | PyNone | PyBool _ | PyInt _ | PyFloat _ => true
  | _ => false
  end.

(** A state in the routing phase with the given history, outputs and
    artifacts. *)
Definition sample_state (history : list routing_entry) (outputs : list output_entry)
    (found : gmap string pyval) : AgentState := {|
  task := Some "add input validation to parse_config";
  repo_path := Some "/repo";
  messages := [HumanMessage (TaskText "add input validation to parse_config") None];
  plan := Some (PyStr "1. validate 2. test");
  next_agent := Some "qa";
  current_instruction := Some (PyStr "run pytest");
  iteration := Some (Z.of_nat (length history) + 1);
  routing_history := Some history;
  agent_outputs := Some outputs;
  artifacts := Some found;
  human_approved := Some PyNone;
  human_feedback := Some PyNone;
  final_summary := Some PyNone;
|}.


Definition sample_output (n : Z) : output_entry :=
  {| o_agent := "qa"; o_output := "5 passed"; o_status := "success";
     o_timestamp := pretty n; o_iteration := n |}.

(** A decision whose [reason] is [null]. *)
Definition null_reason_reply : string :=
  json_text "{'next_agent': 'qa', 'instruction': 'run pytest', 'reason': null}".

(** A model whose plans never hold a [plan]. *)
Definition planless : world := {|
  llm_at k := LlmReplies (json_text "{'first_agent': 'qa', 'first_instruction': 'test'}");
  agent_at k := Demo.patched;
  clock k := pretty k;
|}.

(** The entries of the routing history are numbered from one, and
    [iteration] is one more than their number once there is one. *)
Definition numbered (state : AgentState) : Prop :=
  ∃ history i,
    routing_history state = Some history
    ∧ iteration state = Some i
    ∧ (∀ j e, history !! j = Some e → r_iteration e = Z.of_nat j + 1)
    ∧ ((i = 0 ∧ history = []) ∨ i = Z.of_nat (length history) + 1)
    ∧ (history ≠ [] → planning_phase state = false).

(** The number of nodes a run can execute once the plan is written. *)
Definition node_budget `{Host} : nat := (Z.to_nat (2 * MAX_ITERATIONS) + 1)%nat.

End More.

(** * Properties *)

Import Supervisor Agents Graph.

(** ** Text and dictionaries on examples *)

Example strip_ex : Text.strip "  qa" = "qa".
Proof. reflexivity. Qed.

Example fenced_ex : Text.search_fenced "```json" "x ```json {} ``` y" = Some " {} ".
Proof. reflexivity. Qed.

Example object_ex : Text.search_object "ab {x {y} z} c}" = Some "{x {y} z}".
Proof. reflexivity. Qed.

Example greedy_ex : Text.search_greedy "ab {x {y} z} c} d" = Some "{x {y} z} c}".
Proof. reflexivity. Qed.

Example loads_object_ex :
  Fragment.loads (json_text "{'next_agent': 'qa', 'n': [1, -2, null], 'ok': true}")
  = Some (PyDict [("next_agent", PyStr "qa");
                  ("n", PyList [PyInt 1; PyInt (-2); PyNone]);
                  ("ok", PyBool true)]).
Proof. vm_compute. reflexivity. Qed.

Example loads_prose_ex : Fragment.loads "I think we should run tests next" = None.
Proof. reflexivity. Qed.

Example loads_trailing_ex : Fragment.loads (json_text "{'a': 1} x") = None.
Proof. reflexivity. Qed.

Lemma dict_get_set_eq (d : pydict) (k : string) (v : pyval) :
  dict_get (dict_set d k v) k = Some v.
Proof.
  induction d as [|[k' v'] d IH]; simpl.
  - by rewrite String.eqb_refl.
  - destruct (String.eqb k' k) eqn:E; simpl.
    + by rewrite String.eqb_refl.
    + by rewrite E.
Qed.

Lemma dict_get_set_ne (d : pydict) (k k' : string) (v : pyval) :
  k ≠ k' → dict_get (dict_set d k v) k' = dict_get d k'.
Proof.
  intros Hne. induction d as [|[k0 v0] d IH]; simpl.
  - destruct (String.eqb k k') eqn:E; [|done].
    apply String.eqb_eq in E. done.
  - destruct (String.eqb k0 k) eqn:E; simpl.
    + apply String.eqb_eq in E. subst k0.
      destruct (String.eqb k k') eqn:E'; [|done].
      apply String.eqb_eq in E'. done.
    + by rewrite IH.
Qed.

Lemma finish_valid : "FINISH" ∈ VALID_AGENTS.
Proof.
  unfold VALID_AGENTS. rewrite !elem_of_union, !elem_of_singleton. tauto.
Qed.

Lemma valid_agents_spec (a : string) :
  a ∈ valid_agents ↔
  a = "developer" ∨ a = "qa" ∨ a = "reviewer" ∨ a = "devops" ∨ a = "docs".
Proof.
  unfold valid_agents. rewrite !elem_of_union, !elem_of_singleton. tauto.
Qed.

Lemma workers_spec (a : string) :
  a ∈ VALID_AGENTS ∖ {["FINISH"]} ↔ a ∈ valid_agents.
Proof.
  rewrite elem_of_difference, valid_agents_spec. unfold VALID_AGENTS.
  rewrite !elem_of_union, !elem_of_singleton.
  split.
  - intros [Hin Hne]. tauto.
  - intros Hin. split; [tauto|].
    intros ->. destruct Hin as [?|[?|[?|[?|?]]]]; discriminate.
Qed.

Lemma worker_name_valid (w : worker) : worker_name w ∈ valid_agents.
Proof. apply valid_agents_spec. destruct w; simpl; tauto. Qed.

Lemma path_map_worker (r : string) (a : worker) :
  path_map r = Some (Some a) → r = worker_name a ∧ r ≠ END.
Proof.
  unfold path_map. intros Hp.
  repeat case_match; simplify_eq;
    match goal with E : String.eqb _ _ = true |- _ => apply String.eqb_eq in E; subst r end;
    (split; [reflexivity | discriminate]).
Qed.

Lemma path_map_end (r : string) : path_map r = Some None → r = END.
Proof.
  unfold path_map. intros Hp.
  repeat case_match; simplify_eq.
  by apply String.eqb_eq.
Qed.

Section HostProperties.
Context `{Host}.

(** ** The decision parser *)

Lemma sanitize_next_agent_valid (v : pyval) : sanitize_next_agent v ∈ VALID_AGENTS.
Proof.
  unfold sanitize_next_agent.
  case_decide as Hin; [exact Hin|].
  destruct (find _ VALID_AGENTS_iter) as [matched|] eqn:Hfind; [|apply finish_valid].
  destruct (String.eqb matched EmptyString); [apply finish_valid|].
  apply find_some in Hfind as [Hm _].
  apply VALID_AGENTS_iter_spec, list_elem_of_In, Hm.
Qed.

(** When [_parse_json_response] returns, [next_agent] holds a string of
    [VALID_AGENTS], and that string is the decision [supervisor_node] reads. *)
Lemma parse_next_agent (raw : string) (data : pydict) :
  _parse_json_response raw = Ok data →
  ∃ a, dict_get data "next_agent" = Some (PyStr a)
       ∧ a ∈ VALID_AGENTS ∧ decided_agent data = a.
Proof.
  unfold _parse_json_response.
  destruct (decode _) as [[| | | | |l|d]|]; try discriminate.
  intros [= <-]. eexists. unfold decided_agent.
  rewrite dict_get_set_eq. split; [reflexivity|].
  split; [apply sanitize_next_agent_valid | reflexivity].
Qed.

Lemma parse_or_decision_valid (content : string) (data : pydict) :
  parse_or (fun _ => fallback_decision) content = Ok data →
  decided_agent data ∈ VALID_AGENTS.
Proof.
  unfold parse_or.
  destruct (_parse_json_response content) as [d|e] eqn:Hp.
  - intros [= <-]. destruct (parse_next_agent _ _ Hp) as (a & _ & Ha & ->). exact Ha.
  - destruct e; try discriminate. intros [= <-]. apply finish_valid.
Qed.

(** The parser raises [ValueError], which both call sites catch, or
    [AttributeError], which neither catches. *)
Lemma parse_raises (raw : string) (e : exn) :
  _parse_json_response raw = Raise e →
  (∃ m, e = ValueError m) ∨ (∃ m, e = AttributeError m).
Proof.
  unfold _parse_json_response.
  destruct (decode _) as [[| | | | |l|d]|]; intros [= <-]; eauto.
Qed.

End HostProperties.

(** ** Routing after the supervisor *)

Section Routing.
Context `{Host}.

Lemma route_cases (state : AgentState) :
  (route_after_supervisor state = END)
  ∨ (route_after_supervisor state = default "FINISH" (next_agent state)
     ∧ default "FINISH" (next_agent state) ∈ valid_agents
     ∧ default 0 (iteration state) ≤ MAX_ITERATIONS).
Proof.
  unfold route_after_supervisor.
  destruct (default 0 (iteration state) >? MAX_ITERATIONS) eqn:Hgt; [by left|].
  destruct (String.eqb _ "FINISH"); [by left|].
  case_decide as Hin; [|by left].
  right. split; [done|]. split; [done|]. lia.
Qed.

Lemma route_end_above_ceiling (state : AgentState) :
  MAX_ITERATIONS < default 0 (iteration state) → route_after_supervisor state = END.
Proof.
  intros Hlt. unfold route_after_supervisor.
  destruct (default 0 (iteration state) >? MAX_ITERATIONS) eqn:Hgt; [done|]. lia.
Qed.

Lemma route_resolves (state : AgentState) :
  ∃ target, path_map (route_after_supervisor state) = Some target.
Proof.
  destruct (route_cases state) as [Hend | (Hr & Hin & _)].
  - rewrite Hend. by exists None.
  - rewrite Hr. apply valid_agents_spec in Hin.
    destruct Hin as [->|[->|[->|[->| ->]]]]; eexists; reflexivity.
Qed.

(** C10. For every state, whether [next_agent] is absent, empty, [FINISH]
    or any other string, [route_after_supervisor] returns [END] or one of
    the five worker names, which the path map of the graph resolves; a
    [next_agent] outside the five names gives [END]. *)
Theorem route_after_supervisor_range (state : AgentState) :
  (route_after_supervisor state = END
   ∨ route_after_supervisor state = "developer"
   ∨ route_after_supervisor state = "qa"
   ∨ route_after_supervisor state = "reviewer"
   ∨ route_after_supervisor state = "devops"
   ∨ route_after_supervisor state = "docs")
  ∧ (default "FINISH" (next_agent state) ∉ valid_agents
     → route_after_supervisor state = END)
  ∧ (∃ target, path_map (route_after_supervisor state) = Some target).
Proof.
  split; [|split; [|apply route_resolves]].
  - destruct (route_cases state) as [Hend | (Hr & Hin & _)]; [by left|].
    rewrite Hr. apply valid_agents_spec in Hin. tauto.
  - intros Hout. by destruct (route_cases state) as [Hend | (_ & Hin & _)].
Qed.

End Routing.

(** ** The output normaliser *)

Section Normaliser.

Lemma record_artifacts_union (state : AgentState) (agent_name output status now : string)
    (found : gmap string pyval) :
  u_artifacts (record_agent_output state agent_name output status (Some found) now)
  = found ∪ default ∅ state.(artifacts).
Proof.
  unfold record_agent_output. simpl.
  case_decide as He; [|done]. subst found. by rewrite (left_id_L ∅ (∪)).
Qed.

Lemma artifacts_with_updates (state : AgentState) (u : updates) :
  artifacts (with_updates state u) = Some (u_artifacts u).
Proof. reflexivity. Qed.

Lemma artifacts_commit (old state : AgentState) (u : updates) :
  artifacts (commit old (with_updates state u)) = Some (u_artifacts u).
Proof. reflexivity. Qed.

(** C9. Recording a report merges its artifacts into those of the state,
    the report's value winning on a key both hold and the other keys kept;
    recording the same artifacts once more, on the state the node returns
    or on the state the graph stores, leaves the mapping as it was. *)
Theorem record_merges_artifacts (state : AgentState)
    (agent_name output status now agent_name' output' status' now' : string)
    (found : gmap string pyval) :
  let u := record_agent_output state agent_name output status (Some found) now in
  let state1 := with_updates state u in
  u_artifacts u = found ∪ default ∅ state.(artifacts)
  ∧ (∀ k v, found !! k = Some v → u_artifacts u !! k = Some v)
  ∧ (∀ k, found !! k = None → u_artifacts u !! k = default ∅ state.(artifacts) !! k)
  ∧ artifacts state1 = Some (u_artifacts u)
  ∧ artifacts (commit state state1) = Some (u_artifacts u)
  ∧ u_artifacts (record_agent_output state1 agent_name' output' status' (Some found) now')
    = u_artifacts u
  ∧ u_artifacts (record_agent_output (commit state state1) agent_name' output' status'
                   (Some found) now')
    = u_artifacts u.
Proof.
  cbv zeta.
  assert (Hagain : found ∪ (found ∪ default ∅ state.(artifacts))
                   = found ∪ default ∅ state.(artifacts)).
  { by rewrite (assoc_L (∪)), (idemp_L (∪)). }
  rewrite !record_artifacts_union, !artifacts_commit, !artifacts_with_updates.
  rewrite !record_artifacts_union. simpl.
  split; [done|].
  split. { intros k v Hk. by apply lookup_union_Some_l. }
  split. { intros k Hk. by apply lookup_union_r. }
  done.
Qed.

End Normaliser.

(** ** Worker nodes *)

Section Workers.
Context `{Host}.

Lemma worker_node_ok (w : worker) (state : AgentState) (o : agent_outcome) (now : string) :
  changed_ctx w state = Ok tt →
  worker_node w state o now
  = Ok (with_updates state
          (record_agent_output state (worker_name w) (report_of w o).1.1
             (report_of w o).1.2 (Some (report_of w o).2) now)).
Proof.
  intros Hctx. unfold worker_node. rewrite Hctx. simpl.
  by destruct (report_of w o) as [[output status] found].
Qed.

Lemma developer_ctx (state : AgentState) : changed_ctx developer state = Ok tt.
Proof. reflexivity. Qed.

(** C5. When the tool-use loop of a worker raises, the node does not
    raise: it records, through [record_agent_output] as it does for a
    finished loop, a report whose status is [error] and whose text names the
    exception and its message, and the graph goes on to the supervisor.
    [changed_ctx] is the prompt text that [qa_node], [reviewer_node] and
    [docs_node] build before entering the loop; [developer_node] and
    [devops_node] build none. *)
Theorem worker_failure_is_recorded (wd : world) (fuel k : nat) (w : worker)
    (state : AgentState) (log : list step) (e : exn) :
  changed_ctx w state = Ok tt →
  agent_at wd k = AgentRaise e →
  let report :=
    record_agent_output state (worker_name w) (error_output w e) "error"
      (Some (error_artifacts w)) (clock wd k) in
  let ret := with_updates state report in
  worker_node w state (AgentRaise e) (clock wd k) = Ok ret
  ∧ u_agent_outputs report
    = default [] state.(agent_outputs)
      ++ [ {| o_agent := worker_name w; o_output := error_output w e;
              o_status := "error"; o_timestamp := clock wd k;
              o_iteration := default 0 state.(iteration) |} ]
  ∧ (∀ output status found,
       worker_node w state (AgentDone output status found) (clock wd k)
       = Ok (with_updates state
               (record_agent_output state (worker_name w) output status
                  (Some found) (clock wd k))))
  ∧ run wd (S fuel) k (agent w) state log
    = run wd fuel (S k) supervisor (commit state ret)
        (log ++ [ {| at_node := agent w; before := state; returned := ret;
                     after := commit state ret |} ]).
Proof.
  intros Hctx Hraise report ret.
  assert (Hnode : worker_node w state (AgentRaise e) (clock wd k) = Ok ret).
  { by rewrite worker_node_ok. }
  split; [exact Hnode|]. split; [reflexivity|].
  split. { intros output status found. by rewrite worker_node_ok. }
  simpl. by rewrite Hraise, Hnode.
Qed.

End Workers.

(** ** The supervisor node *)

Section SupervisorNode.
Context `{Host}.

Lemma supervisor_node_planning (state : AgentState) (content now : string) :
  planning_phase state = true →
  supervisor_node state (LlmReplies content) now = plan_step state content.
Proof. intros Hp. unfold supervisor_node. by rewrite Hp. Qed.

Lemma supervisor_node_routing (state : AgentState) (content now : string) :
  planning_phase state = false →
  _format_routing_history state = Ok tt →
  supervisor_node state (LlmReplies content) now = route_step state content now.
Proof. intros Hp Hf. unfold supervisor_node. by rewrite Hp, Hf. Qed.

(** C1 (the code departs from it). A reply whose JSON decodes to a value
    that is neither an object nor [null] makes [_parse_json_response] raise
    [AttributeError]; the [except ValueError] of [supervisor_node] does not
    catch it, whatever the fallback, and the node raises. *)
Theorem parse_non_object_raises (raw now : string) (v : pyval) (state : AgentState) :
  decode (extract_json_text raw) = Some v →
  v ≠ PyNone →
  (∀ d, v ≠ PyDict d) →
  planning_phase state = true ∨ _format_routing_history state = Ok tt →
  ∃ m, _parse_json_response raw = Raise (AttributeError m)
       ∧ (∀ fallback, parse_or fallback raw = Raise (AttributeError m))
       ∧ supervisor_node state (LlmReplies raw) now = Raise (AttributeError m).
Proof.
  intros Hdec Hnone Hdict Hphase.
  assert (Hparse : ∃ m, _parse_json_response raw = Raise (AttributeError m)).
  { unfold _parse_json_response. rewrite Hdec.
    destruct v as [| | | | | |d]; try (eexists; reflexivity); [done|].
    by destruct (Hdict d). }
  destruct Hparse as [m Hparse]. exists m.
  assert (Hor : ∀ fallback, parse_or fallback raw = Raise (AttributeError m)).
  { intros fallback. unfold parse_or. by rewrite Hparse. }
  split; [exact Hparse|]. split; [exact Hor|].
  unfold supervisor_node.
  destruct (planning_phase state) eqn:Hp.
  - simpl. unfold plan_step. by rewrite Hor.
  - destruct Hphase as [?|Hf]; [done|]. rewrite Hf. simpl.
    unfold route_step. by rewrite Hor.
Qed.

(** C4 (the code departs from it). When [llm.invoke] raises in the
    supervisor, in the planning phase or in the routing phase once the
    prompt is built, no handler is in place: [supervisor_node] raises the
    same exception and the run ends with it. *)
Theorem completion_failure_propagates (wd : world) (fuel k : nat)
    (state : AgentState) (log : list step) (e : exn) :
  llm_at wd k = LlmFails e →
  planning_phase state = true ∨ _format_routing_history state = Ok tt →
  supervisor_node state (LlmFails e) (clock wd k) = Raise e
  ∧ run wd (S fuel) k supervisor state log = (Crashed e, log).
Proof.
  intros Hllm Hphase.
  assert (Hnode : supervisor_node state (LlmFails e) (clock wd k) = Raise e).
  { unfold supervisor_node. destruct (planning_phase state); [done|].
    destruct Hphase as [?|Hf]; [done|]. by rewrite Hf. }
  split; [exact Hnode|]. simpl. by rewrite Hllm, Hnode.
Qed.

Lemma cleaned_valid_not_finish (a : string) :
  a ∈ valid_agents → String.eqb (Text.lower a) "finish" = false.
Proof.
  intros Ha. apply valid_agents_spec in Ha.
  destruct Ha as [->|[->|[->|[->| ->]]]]; reflexivity.
Qed.

Lemma sanitize_first_agent_valid (data : pydict) :
  sanitize_first_agent data ∈ valid_agents.
Proof.
  unfold sanitize_first_agent. case_decide as Hin.
  - by apply workers_spec.
  - apply valid_agents_spec. tauto.
Qed.

Lemma sanitize_first_agent_default (data : pydict) :
  cleaned_first_agent data ∉ valid_agents
  ∨ Text.lower (cleaned_first_agent data) = "finish" →
  sanitize_first_agent data = "developer".
Proof.
  intros Hbad. unfold sanitize_first_agent.
  destruct (String.eqb (Text.lower (cleaned_first_agent data)) "finish") eqn:Hfin.
  - by case_decide.
  - case_decide as Hin; [|done].
    apply workers_spec in Hin. destruct Hbad as [Hout|Hlow]; [done|].
    rewrite Hlow in Hfin. discriminate.
Qed.

Lemma sanitize_first_agent_keeps (data : pydict) :
  cleaned_first_agent data ∈ valid_agents →
  sanitize_first_agent data = cleaned_first_agent data.
Proof.
  intros Hin. unfold sanitize_first_agent.
  rewrite (cleaned_valid_not_finish _ Hin).
  case_decide as Hw; [done|]. by apply workers_spec in Hin.
Qed.

(** C8. In the planning phase, for every reply from which the parser
    yields a record or its [ValueError] fallback, the node returns a state
    with [iteration = 1] and with [plan], [next_agent] and
    [current_instruction] written from the record; [next_agent] is one of
    the five workers, and it is [developer] when [first_agent] is absent,
    is not one of the five workers, or is [FINISH] in any letter case. *)
Theorem plan_defaults_first_agent (state : AgentState) (content now : string)
    (data : pydict) :
  planning_phase state = true →
  parse_or (fallback_plan (default EmptyString state.(task))) content = Ok data →
  ∃ state',
    supervisor_node state (LlmReplies content) now = Ok state'
    ∧ iteration state' = Some 1
    ∧ plan state' = Some (dict_get_default data "plan" (PyStr EmptyString))
    ∧ next_agent state' = Some (sanitize_first_agent data)
    ∧ current_instruction state'
      = Some (dict_get_default data "first_instruction"
                (PyStr (default EmptyString state.(task))))
    ∧ sanitize_first_agent data ∈ valid_agents
    ∧ (dict_get data "first_agent" = None → sanitize_first_agent data = "developer")
    ∧ (cleaned_first_agent data ∉ valid_agents → sanitize_first_agent data = "developer")
    ∧ (Text.lower (cleaned_first_agent data) = "finish"
       → sanitize_first_agent data = "developer")
    ∧ (cleaned_first_agent data ∈ valid_agents
       → sanitize_first_agent data = cleaned_first_agent data).
Proof.
  intros Hp Hdata.
  rewrite (supervisor_node_planning _ _ _ Hp). unfold plan_step. rewrite Hdata. simpl.
  eexists. split; [reflexivity|]. simpl.
  split; [reflexivity|].
  split.
  { unfold dict_get_default. by rewrite dict_get_set_ne. }
  split; [reflexivity|].
  split.
  { unfold dict_get_default. by rewrite dict_get_set_ne. }
  split; [apply sanitize_first_agent_valid|].
  split.
  { intros Hnone.
    assert (Hc : cleaned_first_agent data = "developer").
    { unfold cleaned_first_agent, dict_get_default. rewrite Hnone. reflexivity. }
    rewrite sanitize_first_agent_keeps; rewrite Hc; [done|].
    apply valid_agents_spec. tauto. }
  split. { intros Hout. apply sanitize_first_agent_default. by left. }
  split. { intros Hlow. apply sanitize_first_agent_default. by right. }
  apply sanitize_first_agent_keeps.
Qed.

End SupervisorNode.

(** ** The routing step at the ceiling *)

Section Ceiling.
Context `{Host}.

(** C2 (as amended). When [iteration] has reached the ceiling on entry to
    the routing step, the step does not override the decision: [next_agent]
    and the new last entry of [routing_history] hold the agent read from the
    reply, with the reason the reply gives; the step leaves [iteration]
    above the ceiling, and [route_after_supervisor] then returns [END]
    whatever that agent is. *)
Theorem ceiling_ends_without_override (state : AgentState) (content now : string)
    (data : pydict) :
  planning_phase state = false →
  _format_routing_history state = Ok tt →
  MAX_ITERATIONS ≤ default 0 state.(iteration) →
  parse_or (fun _ => fallback_decision) content = Ok data →
  ∃ state',
    supervisor_node state (LlmReplies content) now = Ok state'
    ∧ decided_agent data ∈ VALID_AGENTS
    ∧ next_agent state' = Some (decided_agent data)
    ∧ routing_history state'
      = Some (default [] state.(routing_history)
              ++ [ {| r_iteration := default 0 state.(iteration);
                      r_agent := decided_agent data;
                      r_reason := dict_get_default data "reason" (PyStr EmptyString);
                      r_timestamp := now |} ])
    ∧ iteration state' = Some (default 0 state.(iteration) + 1)
    ∧ route_after_supervisor state' = END
    ∧ route_after_supervisor (commit state state') = END.
Proof.
  intros Hp Hf Hmax Hdata.
  rewrite (supervisor_node_routing _ _ _ Hp Hf). unfold route_step. rewrite Hdata. simpl.
  eexists. split; [reflexivity|].
  split; [by eapply parse_or_decision_valid|].
  split; [reflexivity|]. split; [reflexivity|]. split; [reflexivity|].
  split; apply route_end_above_ceiling; simpl; lia.
Qed.

End Ceiling.

(** ** Runs of the graph *)

Section Runs.
Context `{Host}.

Lemma planning_phase_false (state : AgentState) :
  planning_phase state = false →
  default 0 state.(iteration) ≠ 0
  ∧ truthy (default (PyStr EmptyString) state.(plan)) = true.
Proof.
  unfold planning_phase. intros Hp.
  apply orb_false_elim in Hp as [Hi Ht].
  split; [lia|]. by apply negb_false_iff.
Qed.

(** What a call of the supervisor that returns has written. *)
Lemma supervisor_node_cases (state ret : AgentState) (llm : llm_outcome) (now : string) :
  supervisor_node state llm now = Ok ret →
  (planning_phase state = true
   ∧ iteration ret = Some 1
   ∧ routing_history ret = Some []
   ∧ agent_outputs ret = Some (default [] state.(agent_outputs)))
  ∨ (planning_phase state = false
     ∧ iteration ret = Some (default 0 state.(iteration) + 1)
     ∧ (∃ e, routing_history ret = Some (default [] state.(routing_history) ++ [e])
             ∧ r_iteration e = default 0 state.(iteration))
     ∧ agent_outputs ret = state.(agent_outputs)
     ∧ truthy (default (PyStr EmptyString) ret.(plan)) = true).
Proof.
  unfold supervisor_node.
  destruct llm as [e|e|content]; try discriminate;
    destruct (planning_phase state) eqn:Hp; simpl; try discriminate.
  - destruct (_format_routing_history state); discriminate.
  - unfold plan_step. destruct (parse_or _ content); simpl; [|discriminate].
    intros [= <-]. left. simpl. done.
  - destruct (_format_routing_history state) as [[]|]; simpl; [|discriminate].
    unfold route_step. destruct (parse_or _ content) as [data|]; simpl; [|discriminate].
    intros [= <-]. right. simpl.
    split; [done|]. split; [done|]. split; [eexists; split; reflexivity|].
    split; [done|].
    apply planning_phase_false in Hp as [_ Ht].
    by destruct (truthy (dict_get_default data "plan_update" PyNone)) eqn:Hu.
Qed.

(** What a worker node that returns has written. *)
Lemma worker_node_cases (w : worker) (state ret : AgentState) (o : agent_outcome)
    (now : string) :
  worker_node w state o now = Ok ret →
  iteration ret = state.(iteration)
  ∧ plan ret = state.(plan)
  ∧ routing_history ret = state.(routing_history)
  ∧ next_agent ret = state.(next_agent)
  ∧ ∃ entry, agent_outputs ret = Some (default [] state.(agent_outputs) ++ [entry])
             ∧ o_agent entry = worker_name w.
Proof.
  unfold worker_node. destruct (changed_ctx w state) as [[]|]; simpl; [|discriminate].
  destruct (report_of w o) as [[output status] found].
  intros [= <-]. simpl. repeat (split; [done|]).
  eexists. split; reflexivity.
Qed.

Lemma written_same {A} (x : option A) : written x x = x.
Proof. by destruct x. Qed.

Lemma planning_phase_ext (s1 s2 : AgentState) :
  iteration s1 = iteration s2 → plan s1 = plan s2 →
  planning_phase s1 = planning_phase s2.
Proof. unfold planning_phase. by intros -> ->. Qed.

(** The invariant principle of [run]: a property of the node about to run,
    its state and the steps so far that every step preserves holds of every
    outcome. *)
Lemma run_invariant (wd : world)
    (P : node → AgentState → list step → Prop) (Q : outcome → list step → Prop) :
  (∀ state log llm now ret,
     P supervisor state log →
     supervisor_node state llm now = Ok ret →
     let state' := commit state ret in
     let log' := log ++ [ {| at_node := supervisor; before := state; returned := ret;
                             after := state' |} ] in
     (∀ a, path_map (route_after_supervisor state') = Some (Some a) →
           P (agent a) state' log')
     ∧ (path_map (route_after_supervisor state') = Some None → Q (Final state') log')) →
  (∀ a state log o now ret,
     P (agent a) state log →
     worker_node a state o now = Ok ret →
     P supervisor (commit state ret)
       (log ++ [ {| at_node := agent a; before := state; returned := ret;
                    after := commit state ret |} ])) →
  (∀ n state log, P n state log → Q (Unfinished n state) log) →
  (∀ n state log e, P n state log → Q (Crashed e) log) →
  ∀ fuel k n state log o log',
    P n state log → run wd fuel k n state log = (o, log') → Q o log'.
Proof.
  intros Hsup Hwork Hunf Hcrash.
  induction fuel as [|fuel IH]; intros k n state log o log' HP Hrun; simpl in Hrun.
  - injection Hrun as <- <-. by apply Hunf.
  - destruct n as [|a].
    + destruct (supervisor_node state (llm_at wd k) (clock wd k)) as [ret|e] eqn:Hnode.
      * destruct (Hsup _ _ _ _ _ HP Hnode) as [Hgo Hstop].
        destruct (route_resolves (commit state ret)) as [t Ht].
        rewrite Ht in Hrun. destruct t as [a|].
        -- eapply IH; [|exact Hrun]. by apply Hgo.
        -- injection Hrun as <- <-. by apply Hstop.
      * injection Hrun as <- <-. by eapply Hcrash.
    + destruct (worker_node a state (agent_at wd k) (clock wd k)) as [ret|e] eqn:Hnode.
      * eapply IH; [|exact Hrun]. by eapply Hwork.
      * injection Hrun as <- <-. by eapply Hcrash.
Qed.

End Runs.

Section IterationBound.
Context `{Host}.

Lemma iteration_invariant (wd : world) (fuel k : nat) (n : node) (state : AgentState)
    (log log' : list step) (o : outcome) :
  0 ≤ MAX_ITERATIONS →
  (∃ i, iteration state = Some i ∧ 0 ≤ i ≤ MAX_ITERATIONS) →
  Forall dispatched_below_ceiling log →
  run wd fuel k n state log = (o, log') →
  (∀ s, state_of o = Some s → ∃ i, iteration s = Some i ∧ i ≤ MAX_ITERATIONS + 1)
  ∧ Forall dispatched_below_ceiling log'.
Proof.
  intros Hmax Hit Hlog Hrun.
  eapply (run_invariant wd
            (fun _ s l => (∃ i, iteration s = Some i ∧ 0 ≤ i ≤ MAX_ITERATIONS)
                          ∧ Forall dispatched_below_ceiling l)
            (fun o l => (∀ s, state_of o = Some s →
                              ∃ i, iteration s = Some i ∧ i ≤ MAX_ITERATIONS + 1)
                        ∧ Forall dispatched_below_ceiling l));
    [ | | | | split; [exact Hit | exact Hlog] | exact Hrun ].
  - clear. intros state log llm now ret [(i & Hi & Hrange) Hlog] Hnode state' log'.
    assert (Hlog' : Forall dispatched_below_ceiling log').
    { apply Forall_app. split; [done|]. apply Forall_singleton. intros a [=]. }
    assert (Hit' : ∃ i', iteration state' = Some i' ∧ 0 ≤ i' ≤ MAX_ITERATIONS + 1).
    { subst state'. simpl.
      destruct (supervisor_node_cases _ _ _ _ Hnode)
        as [(_ & -> & _) | (_ & -> & _)]; simpl; rewrite ?Hi; simpl; eexists;
        (split; [reflexivity | lia]). }
    destruct Hit' as (i' & Hi' & Hrange').
    split.
    + intros a Ha. split; [|done].
      apply path_map_worker in Ha as [_ Hne].
      destruct (route_cases state') as [Hend | (_ & _ & Hle)]; [done|].
      rewrite Hi' in Hle. simpl in Hle. exists i'. split; [done | lia].
    + intros _. split; [|done]. intros s [= <-]. exists i'. split; [done | lia].
  - clear. intros a state log o now ret [(i & Hi & Hrange) Hlog] Hnode.
    destruct (worker_node_cases _ _ _ _ _ Hnode) as (Hit & _).
    split.
    + exists i. simpl. rewrite Hit, written_same. done.
    + apply Forall_app. split; [done|]. apply Forall_singleton.
      intros a' _. simpl. rewrite Hi. simpl. lia.
  - clear. intros n state log [(i & Hi & Hrange) Hlog]. split; [|done].
    intros s [= <-]. exists i. split; [done | lia].
  - clear. intros n state log e [_ Hlog]. split; [|done]. intros s [=].
Qed.

(** C3. With a ceiling that is not negative, every run from the initial
    state ends with [iteration] at most the ceiling plus one, and every
    worker it dispatched was dispatched with [iteration] at most the
    ceiling. *)
Theorem iteration_bounded (task0 resolved : string) (wd : world) (fuel : nat)
    (state : AgentState) (log : list step) :
  0 ≤ MAX_ITERATIONS →
  run_task task0 resolved wd fuel = (Final state, log) →
  (∃ i, iteration state = Some i ∧ i ≤ MAX_ITERATIONS + 1)
  ∧ (∀ st a, st ∈ log → at_node st = agent a →
             default 0 (iteration (before st)) ≤ MAX_ITERATIONS).
Proof.
  intros Hmax Hrun. unfold run_task in Hrun.
  eapply iteration_invariant in Hrun as [Hfinal Hlog]; [ |done| |by constructor].
  - split; [by apply Hfinal|].
    intros st a Hst Ha. rewrite Forall_forall in Hlog. by eapply Hlog.
  - exists 0. simpl. split; [done | lia].
Qed.

End IterationBound.

Section RoutingHistory.
Context `{Host}.

Lemma routing_calls_snoc (log : list step) (st : step) :
  routing_calls (log ++ [st])
  = (routing_calls log
     + if is_supervisor st && negb (planning_phase (before st)) then 1 else 0)%nat.
Proof.
  unfold routing_calls. rewrite List.filter_app, length_app. simpl.
  by destruct (is_supervisor st && negb (planning_phase (before st))).
Qed.

Lemma increasing_snoc (history : list routing_entry) (e : routing_entry) :
  increasing history →
  Forall (fun e' => r_iteration e' < r_iteration e) history →
  increasing (history ++ [e]).
Proof.
  intros Hinc Hall i j ei ej Hij Hi Hj.
  assert (Hjlen : (j < length (history ++ [e]))%nat) by (by eapply lookup_lt_Some).
  rewrite length_app in Hjlen. simpl in Hjlen.
  rewrite lookup_app_l in Hi by lia.
  destruct (decide (j < length history)%nat) as [Hlt|Hge].
  - rewrite lookup_app_l in Hj by lia. exact (Hinc i j ei ej Hij Hi Hj).
  - rewrite lookup_app_r in Hj by lia.
    replace (j - length history)%nat with 0%nat in Hj by lia.
    injection Hj as <-.
    rewrite Forall_forall in Hall. apply Hall. by eapply list_elem_of_lookup_2.
Qed.

Lemma history_invariant_run (wd : world) (fuel k : nat) (n : node) (state : AgentState)
    (log log' : list step) (o : outcome) :
  history_invariant state log →
  run wd fuel k n state log = (o, log') →
  ∀ s, state_of o = Some s →
       ∃ history, routing_history s = Some history
                  ∧ length history = routing_calls log'
                  ∧ increasing history.
Proof.
  intros Hinv Hrun.
  eapply (run_invariant wd
            (fun _ s l => history_invariant s l)
            (fun o l => ∀ s, state_of o = Some s →
                             ∃ history, routing_history s = Some history
                                        ∧ length history = routing_calls l
                                        ∧ increasing history));
    [ | | | | exact Hinv | exact Hrun ].
  - clear. intros state log llm now ret
      (history & i & Hh & Hi & Hpos & Hlen & Hall & Hinc & Hphase) Hnode state' log'.
    assert (Hinv' : history_invariant state' log').
    { subst state' log'. unfold history_invariant, planning_phase.
      rewrite routing_calls_snoc. simpl.
      destruct (supervisor_node_cases _ _ _ _ Hnode)
        as [(Hp & Hit & Hrh & _) | (Hp & Hit & (e & Hrh & He) & _ & Hplan)];
        rewrite Hp, Hit, Hrh; simpl.
      - destruct history as [|e0 history]; [|by rewrite Hphase in Hp].
        exists [], 1. simpl in *.
        split; [done|]. split; [done|]. split; [lia|]. split; [lia|].
        split; [constructor|]. split; [|done]. by intros ? ? ? ? ? [=].
      - rewrite Hh, Hi in *. simpl in *.
        exists (history ++ [e]), (i + 1).
        split; [done|]. split; [done|]. split; [lia|].
        split. { rewrite length_app. simpl. lia. }
        split.
        { apply Forall_app. split.
          - eapply Forall_impl; [exact Hall|]. simpl. intros; lia.
          - apply Forall_singleton. lia. }
        split. { apply increasing_snoc; [done|]. by rewrite He. }
        intros _.
        destruct (plan ret) as [p|]; simpl in *; [|discriminate].
        rewrite Hplan. simpl. apply orb_false_intro; [lia|done]. }
    split; [done|].
    intros _ s [= <-]. destruct Hinv' as (h' & _ & Hh' & _ & _ & Hlen' & _ & Hinc' & _).
    by exists h'.
  - clear. intros a state log o now ret
      (history & i & Hh & Hi & Hpos & Hlen & Hall & Hinc & Hphase) Hnode.
    destruct (worker_node_cases _ _ _ _ _ Hnode) as (Hit & Hplan & Hrh & _).
    exists history, i. rewrite routing_calls_snoc. simpl.
    rewrite Hit, Hrh, !written_same.
    repeat (split; [done || lia|]).
    intros Hne. rewrite <- (Hphase Hne).
    apply planning_phase_ext; simpl; by rewrite ?Hit, ?Hplan, written_same.
  - clear. intros n state log (history & i & Hh & _ & _ & Hlen & _ & Hinc & _) s [= <-].
    by exists history.
  - clear. intros n state log e _ s [=].
Qed.

(** C7. At the end of every run from the initial state, and at every point
    on the way, [routing_history] has one entry for each call of the
    supervisor that took the routing phase, the call that decided [FINISH]
    included, and the iterations of its entries increase strictly. *)
Theorem routing_history_counts_calls (task0 resolved : string) (wd : world) (fuel : nat)
    (o : outcome) (state : AgentState) (log : list step) :
  run_task task0 resolved wd fuel = (o, log) →
  state_of o = Some state →
  ∃ history,
    routing_history state = Some history
    ∧ length history = routing_calls log
    ∧ ∀ i j ei ej, (i < j)%nat → history !! i = Some ei → history !! j = Some ej →
                   r_iteration ei < r_iteration ej.
Proof.
  intros Hrun Hstate. unfold run_task in Hrun.
  eapply history_invariant_run; [|exact Hrun|exact Hstate].
  exists [], 0. simpl.
  split; [done|]. split; [done|]. split; [lia|]. split; [done|].
  split; [constructor|]. split; [|done]. by intros ? ? ? ? ? [=].
Qed.

End RoutingHistory.

Section Dispatches.
Context `{Host}.

Lemma dispatches_snoc (log : list step) (st : step) :
  dispatches (log ++ [st])
  = (dispatches log + if is_supervisor st then 0 else 1)%nat.
Proof.
  unfold dispatches. rewrite List.filter_app, length_app. simpl.
  by destruct (is_supervisor st).
Qed.

Lemma dispatching_decisions_snoc (log : list step) (st : step) :
  dispatching_decisions (log ++ [st])
  = (dispatching_decisions log
     + if is_supervisor st && negb (String.eqb (route_after_supervisor (after st)) END)
       then 1 else 0)%nat.
Proof.
  unfold dispatching_decisions. rewrite List.filter_app, length_app. simpl.
  by destruct (is_supervisor st && _).
Qed.

(** The conditional edge leads to a worker exactly when [next_agent] is one
    of the five workers and [iteration] has not passed the ceiling. *)
Lemma route_dispatch_iff (state : AgentState) :
  route_after_supervisor state ≠ END
  ↔ default "FINISH" (next_agent state) ∈ valid_agents
    ∧ default 0 (iteration state) ≤ MAX_ITERATIONS.
Proof.
  split.
  - intros Hne. destruct (route_cases state) as [?|(_ & ? & ?)]; done.
  - intros [Hin Hle]. unfold route_after_supervisor.
    destruct (default 0 (iteration state) >? MAX_ITERATIONS) eqn:Hgt; [lia|].
    apply valid_agents_spec in Hin as Hcases.
    destruct (String.eqb (default "FINISH" (next_agent state)) "FINISH") eqn:Hfin.
    { apply String.eqb_eq in Hfin. rewrite Hfin in Hcases.
      destruct Hcases as [?|[?|[?|[?|?]]]]; discriminate. }
    case_decide; [|done].
    destruct Hcases as [->|[->|[->|[->| ->]]]]; discriminate.
Qed.

(** What the graph stores after a node: [agent_outputs] is a channel with
    [operator.add], so the list a node returns is added to the stored one. *)
Lemma stored_outputs_after_supervisor (state ret : AgentState) (llm : llm_outcome)
    (now : string) :
  supervisor_node state llm now = Ok ret →
  agent_outputs (commit state ret)
  = Some (default [] state.(agent_outputs) ++ default [] state.(agent_outputs)).
Proof.
  intros Hnode. simpl.
  by destruct (supervisor_node_cases _ _ _ _ Hnode)
    as [(_ & _ & _ & ->) | (_ & _ & _ & -> & _)].
Qed.

Lemma stored_outputs_after_worker (w : worker) (state ret : AgentState)
    (o : agent_outcome) (now : string) :
  worker_node w state o now = Ok ret →
  ∃ entry,
    agent_outputs (commit state ret)
    = Some (default [] state.(agent_outputs)
            ++ default [] state.(agent_outputs) ++ [entry]).
Proof.
  intros Hnode. simpl.
  destruct (worker_node_cases _ _ _ _ _ Hnode) as (_ & _ & _ & _ & entry & -> & _).
  by exists entry.
Qed.

Lemma dispatch_invariant (wd : world) (fuel k : nat) (n : node) (state : AgentState)
    (log log' : list step) (o : outcome) :
  Forall appends_one log →
  match n with
  | supervisor => dispatches log = dispatching_decisions log
  | agent _ => S (dispatches log) = dispatching_decisions log
  end →
  run wd fuel k n state log = (o, log') →
  Forall appends_one log'
  ∧ (∀ s, o = Final s → dispatches log' = dispatching_decisions log').
Proof.
  intros Hlog Hcount Hrun.
  eapply (run_invariant wd
            (fun n _ l => Forall appends_one l
                          ∧ match n with
                            | supervisor => dispatches l = dispatching_decisions l
                            | agent _ => S (dispatches l) = dispatching_decisions l
                            end)
            (fun o l => Forall appends_one l
                        ∧ (∀ s, o = Final s → dispatches l = dispatching_decisions l)));
    [ | | | | split; [exact Hlog | exact Hcount] | exact Hrun ].
  - clear. intros state log llm now ret [Hlog Hcount] Hnode state' log'.
    assert (Hlog' : Forall appends_one log').
    { apply Forall_app. split; [done|]. apply Forall_singleton.
      unfold appends_one. simpl.
      destruct (supervisor_node_cases _ _ _ _ Hnode)
        as [(_ & _ & _ & ->) | (_ & _ & _ & -> & _)]; done. }
    subst log'. rewrite dispatches_snoc, dispatching_decisions_snoc. simpl.
    split.
    + intros a Ha. split; [done|].
      apply path_map_worker in Ha as [_ Hne].
      apply String.eqb_neq in Hne. rewrite Hne. simpl. lia.
    + intros Hend. split; [done|]. intros _ _.
      apply path_map_end in Hend. rewrite Hend. simpl. lia.
  - clear. intros a state log o now ret [Hlog Hcount] Hnode.
    destruct (worker_node_cases _ _ _ _ _ Hnode) as (_ & _ & _ & _ & Happ).
    rewrite dispatches_snoc, dispatching_decisions_snoc. simpl.
    split; [|lia].
    apply Forall_app. split; [done|]. by apply Forall_singleton.
  - clear. intros n state log [Hlog _]. split; [done|]. by intros s [=].
  - clear. intros n state log e [Hlog _]. split; [done|]. by intros s [=].
Qed.

(** C6 (as amended). In every completed run, each executed worker node
    returns the [agent_outputs] it read with exactly one entry of its own
    appended and the supervisor node returns the [agent_outputs] it read;
    the number of worker nodes executed is the number of supervisor
    decisions, planning included, after which the conditional edge leads to
    a worker, which it does exactly when [next_agent] is one of the five
    workers and [iteration] has not passed the ceiling. *)
Theorem outputs_follow_dispatches (task0 resolved : string) (wd : world) (fuel : nat)
    (state : AgentState) (log : list step) :
  run_task task0 resolved wd fuel = (Final state, log) →
  dispatches log = dispatching_decisions log
  ∧ (∀ st, st ∈ log → appends_one st)
  ∧ (∀ st, st ∈ log →
       (route_after_supervisor (after st) ≠ END
        ↔ default "FINISH" (next_agent (after st)) ∈ valid_agents
          ∧ default 0 (iteration (after st)) ≤ MAX_ITERATIONS)).
Proof.
  intros Hrun. unfold run_task in Hrun.
  eapply dispatch_invariant in Hrun as [Hlog Hcount]; [|by constructor|done].
  split; [by eapply Hcount|].
  split. { intros st Hst. rewrite Forall_forall in Hlog. by apply Hlog. }
  intros st _. apply route_dispatch_iff.
Qed.

End Dispatches.

(** ** The theorems on concrete runs *)

Section AtDefaultCeiling.
#[local] Existing Instance Demo.default_host.

Example parse_prose_ex :
  _parse_json_response "I think we should run tests next"
  = Raise (ValueError ("Não foi possível parsear JSON da resposta:" +:+ nl
                       +:+ "I think we should run tests next")).
Proof. reflexivity. Qed.

Example parse_fenced_ex :
  _parse_json_response Demo.qa_reply
  = Ok [("next_agent", PyStr "qa"); ("instruction", PyStr "run pytest");
        ("reason", PyStr "new code")].
Proof. reflexivity. Qed.

Example parse_suffix_ex :
  _parse_json_response (json_text "{'next_agent': 'Agent: developer_node | qa'}")
  = Ok [("next_agent", PyStr "developer")].
Proof. reflexivity. Qed.

Example parse_array_ex :
  _parse_json_response "[]" = Raise (AttributeError "object has no attribute 'get'").
Proof. reflexivity. Qed.

(** Scenario 2 of the specification: a reply without JSON ends the run at
    that call, with no worker dispatched. *)
Example prose_reply_finishes :
  ∃ state',
    supervisor_node Demo.at_ceiling (LlmReplies "I think we should run tests next") "12"
    = Ok state'
    ∧ next_agent state' = Some "FINISH"
    ∧ route_after_supervisor state' = END.
Proof. eexists. split; [reflexivity|]. split; reflexivity. Qed.

(** The array [[]] as a reply, in the planning phase. *)
Lemma parse_non_object_raises_witness :
  ∃ m, supervisor_node (create_initial_state "task" "/repo") (LlmReplies "[]") "0"
       = Raise (AttributeError m).
Proof.
  destruct (parse_non_object_raises "[]" "0" (PyList [])
              (create_initial_state "task" "/repo"))
    as (m & _ & _ & Hnode).
  - reflexivity.
  - discriminate.
  - discriminate.
  - by left.
  - by exists m.
Defined.

(** C2, as stated, fails: at the ceiling the last routing entry names the
    worker the model chose, with the model's reason. *)
Lemma ceiling_keeps_model_decision :
  iteration Demo.at_ceiling = Some MAX_ITERATIONS
  ∧ ∃ state',
      supervisor_node Demo.at_ceiling (LlmReplies Demo.developer_reply) "12" = Ok state'
      ∧ next_agent state' = Some "developer"
      ∧ last (default [] (routing_history state'))
        = Some {| r_iteration := 12; r_agent := "developer";
                  r_reason := PyStr "tests still fail"; r_timestamp := "12" |}
      ∧ String.eqb "developer" "FINISH" = false.
Proof.
  split; [reflexivity|]. eexists. split; [reflexivity|].
  split; [reflexivity|]. split; reflexivity.
Qed.

Lemma ceiling_ends_without_override_witness :
  ∃ state',
    supervisor_node Demo.at_ceiling (LlmReplies Demo.developer_reply) "12" = Ok state'
    ∧ next_agent state' = Some "developer"
    ∧ route_after_supervisor state' = END.
Proof.
  edestruct (ceiling_ends_without_override Demo.at_ceiling Demo.developer_reply "12")
    as (state' & Hnode & _ & Hnext & _ & _ & Hroute & _).
  - reflexivity.
  - reflexivity.
  - simpl. lia.
  - vm_compute. reflexivity.
  - exists state'. split; [exact Hnode|]. split; [exact Hnext | exact Hroute].
Defined.

Lemma iteration_bounded_witness :
  ∃ state log,
    run_task "task" "/repo" Demo.finishing 10 = (Final state, log)
    ∧ ∃ i, iteration state = Some i ∧ i ≤ 12 + 1.
Proof.
  eexists _, _. split; [vm_compute; reflexivity|].
  edestruct (iteration_bounded "task" "/repo" Demo.finishing 10) as [Hbound _].
  - simpl. lia.
  - vm_compute. reflexivity.
  - exact Hbound.
Defined.

Lemma completion_failure_propagates_witness :
  run_task "task" "/repo" Demo.unreachable 10 = (Crashed Demo.timeout, []).
Proof.
  destruct (completion_failure_propagates Demo.unreachable 9 0
              (create_initial_state "task" "/repo") [] Demo.timeout) as [_ Hrun].
  - reflexivity.
  - by left.
  - exact Hrun.
Defined.

Lemma worker_failure_is_recorded_witness :
  ∃ ret,
    worker_node qa Demo.at_ceiling (AgentRaise Demo.tool_failure) "3" = Ok ret
    ∧ last (default [] (agent_outputs ret))
      = Some {| o_agent := "qa";
                o_output := "❌ Erro no QA Agent: RuntimeError: tool loop failed";
                o_status := "error"; o_timestamp := "3"; o_iteration := 12 |}.
Proof.
  destruct (worker_failure_is_recorded Demo.finishing 5 3 qa Demo.at_ceiling []
              Demo.tool_failure) as (Hnode & _).
  - reflexivity.
  - reflexivity.
  - eexists. split; [exact Hnode|]. reflexivity.
Defined.

Lemma outputs_follow_dispatches_witness :
  ∃ state log,
    run_task "task" "/repo" Demo.finishing 10 = (Final state, log)
    ∧ dispatches log = dispatching_decisions log.
Proof.
  eexists _, _. split; [vm_compute; reflexivity|].
  edestruct (outputs_follow_dispatches "task" "/repo" Demo.finishing 10) as [Hcount _].
  - vm_compute. reflexivity.
  - exact Hcount.
Defined.

Lemma routing_history_counts_calls_witness :
  ∃ o state log,
    run_task "task" "/repo" Demo.finishing 10 = (o, log)
    ∧ state_of o = Some state
    ∧ ∃ history, routing_history state = Some history
                 ∧ length history = routing_calls log
                 ∧ increasing history.
Proof.
  eexists _, _, _. split; [vm_compute; reflexivity|]. split; [reflexivity|].
  eapply (routing_history_counts_calls "task" "/repo" Demo.finishing 10).
  - vm_compute. reflexivity.
  - reflexivity.
Defined.

Lemma plan_defaults_first_agent_witness :
  ∃ state',
    supervisor_node (create_initial_state "task" "/repo")
      (LlmReplies (json_text "{'plan': 'stop', 'first_agent': 'Finish'}")) "0" = Ok state'
    ∧ iteration state' = Some 1
    ∧ next_agent state' = Some "developer".
Proof.
  edestruct (plan_defaults_first_agent (create_initial_state "task" "/repo")
               (json_text "{'plan': 'stop', 'first_agent': 'Finish'}") "0")
    as (state' & Hnode & Hit & _ & Hnext & _).
  - reflexivity.
  - vm_compute. reflexivity.
  - exists state'. split; [exact Hnode|]. split; [exact Hit|].
    rewrite Hnext. reflexivity.
Defined.

End AtDefaultCeiling.

Section AtLowCeiling.
#[local] Existing Instance Demo.low_host.

(** C6, as stated, fails: with a ceiling of two and a model that never
    answers [FINISH], the supervisor takes three decisions that name a
    worker, two workers run, and [agent_outputs] ends with ten entries. *)
Lemma outputs_differ_from_decisions :
  ∃ state log,
    run_task "task" "/repo" Demo.busy 10 = (Final state, log)
    ∧ length (default [] (agent_outputs state)) = 10%nat
    ∧ non_terminal_decisions log = 3%nat
    ∧ dispatches log = 2%nat.
Proof.
  eexists _, _. split; [vm_compute; reflexivity|].
  split; [reflexivity|]. split; reflexivity.
Qed.

End AtLowCeiling.

(** * Further properties

    The prompt texts, the status inference of the workers, the path guard
    of the file tools, and runs of the graph as a whole. *)

Import TextMore Prompt Status Filesystem More.

Section ParserMore.
Context `{Host}.

(** X1. When [_parse_json_response] returns, the reply held a JSON object;
    the record returned is that object with [next_agent] replaced by one of
    the six valid names, and every other key as decoded. *)
Theorem parse_keeps_other_keys (raw : string) (parsed : pydict) :
  _parse_json_response raw = Ok parsed →
  ∃ data a,
    decode (extract_json_text raw) = Some (PyDict data)
    ∧ dict_get parsed "next_agent" = Some (PyStr a)
    ∧ a ∈ VALID_AGENTS
    ∧ ∀ k, k ≠ "next_agent" → dict_get parsed k = dict_get data k.
Proof.
  unfold _parse_json_response.
  destruct (decode _) as [[| | | | |l|data]|]; try discriminate.
  intros [= <-]. exists data. eexists.
  split; [reflexivity|]. split; [apply dict_get_set_eq|].
  split; [apply sanitize_next_agent_valid|].
  intros k Hk. by apply dict_get_set_ne.
Qed.

(** X2. The sanitisation of [next_agent] leaves each of the six valid names
    as it is, and applying it to its own result changes nothing. *)
Theorem sanitize_fixes_valid_names :
  (∀ a, a ∈ VALID_AGENTS → sanitize_next_agent (PyStr a) = a)
  ∧ (∀ v, sanitize_next_agent (PyStr (sanitize_next_agent v)) = sanitize_next_agent v).
Proof.
  assert (Hfix : ∀ a, a ∈ VALID_AGENTS → sanitize_next_agent (PyStr a) = a).
  { intros a Ha. unfold VALID_AGENTS in Ha.
    rewrite !elem_of_union, !elem_of_singleton in Ha.
    destruct Ha as [[[[[->| ->]| ->]| ->]| ->]| ->]; reflexivity. }
  split; [exact Hfix|].
  intros v. apply Hfix, sanitize_next_agent_valid.
Qed.

End ParserMore.

Section FinishCase.
Context `{Host}.

Lemma lower_char_cases (c : ascii) :
  Text.lower_char c = c
  ∨ c = ascii_of_nat (nat_of_ascii (Text.lower_char c) - 32).
Proof.
  destruct c as [[] [] [] [] [] [] [] []]; (by left) || (by right).
Qed.

(** X3. [finish] in any mix of upper and lower case is read as [FINISH]. *)
Theorem sanitize_folds_finish (s : string) :
  Text.lower s = "finish" → sanitize_next_agent (PyStr s) = "FINISH".
Proof.
  destruct s as [|c1 [|c2 [|c3 [|c4 [|c5 [|c6 [|c7 s]]]]]]]; try discriminate.
  simpl. intros [= H1 H2 H3 H4 H5 H6].
  destruct (lower_char_cases c1) as [E1|E1]; rewrite H1 in E1;
  destruct (lower_char_cases c2) as [E2|E2]; rewrite H2 in E2;
  destruct (lower_char_cases c3) as [E3|E3]; rewrite H3 in E3;
  destruct (lower_char_cases c4) as [E4|E4]; rewrite H4 in E4;
  destruct (lower_char_cases c5) as [E5|E5]; rewrite H5 in E5;
  destruct (lower_char_cases c6) as [E6|E6]; rewrite H6 in E6;
  subst; reflexivity.
Qed.

End FinishCase.

Section FallbackMore.
Context `{Host}.

Lemma parse_value_error (raw : string) :
  decode (extract_json_text raw) = None ∨ decode (extract_json_text raw) = Some PyNone →
  ∃ m, _parse_json_response raw = Raise (ValueError m).
Proof.
  unfold _parse_json_response. intros [-> | ->]; eexists; reflexivity.
Qed.

(** X4. In the routing phase a reply that holds no JSON, or the JSON [null],
    does not stop the node: the decision is [FINISH] with an empty
    instruction and the reason of the [except ValueError] branch, the plan
    is kept, [iteration] grows by one, the entry is appended to the routing
    history, and the conditional edge leads to [END], on the returned
    dictionary and on the stored state. *)
Theorem undecodable_reply_finishes (state : AgentState) (content now : string) :
  planning_phase state = false →
  _format_routing_history state = Ok tt →
  decode (extract_json_text content) = None
  ∨ decode (extract_json_text content) = Some PyNone →
  ∃ ret,
    supervisor_node state (LlmReplies content) now = Ok ret
    ∧ next_agent ret = Some "FINISH"
    ∧ current_instruction ret = Some (PyStr EmptyString)
    ∧ plan ret = Some (default (PyStr EmptyString) state.(plan))
    ∧ iteration ret = Some (default 0 state.(iteration) + 1)
    ∧ routing_history ret
      = Some (default [] state.(routing_history)
              ++ [ {| r_iteration := default 0 state.(iteration);
                      r_agent := "FINISH";
                      r_reason := PyStr "Erro ao parsear resposta do supervisor";
                      r_timestamp := now |} ])
    ∧ route_after_supervisor ret = END
    ∧ route_after_supervisor (commit state ret) = END.
Proof.
  intros Hp Hf Hdec.
  destruct (parse_value_error _ Hdec) as [m Hparse].
  rewrite (supervisor_node_routing _ _ _ Hp Hf).
  unfold route_step, parse_or. rewrite Hparse. simpl.
  eexists. split; [reflexivity|]. simpl.
  repeat (split; [reflexivity|]).
  assert (Hroute : ∀ s, next_agent s = Some "FINISH" → route_after_supervisor s = END).
  { intros s Hs. unfold route_after_supervisor. rewrite Hs. simpl.
    by destruct (_ >? _). }
  split; by apply Hroute.
Qed.

(** X5. In the planning phase such a reply gives the plan of the
    [except ValueError] branch: the plan text names the task, the first
    agent is [developer], the instruction is the task, [iteration] is 1 and
    the routing history is empty. *)
Theorem undecodable_reply_plans_default (state : AgentState) (content now : string) :
  planning_phase state = true →
  decode (extract_json_text content) = None
  ∨ decode (extract_json_text content) = Some PyNone →
  ∃ ret,
    supervisor_node state (LlmReplies content) now = Ok ret
    ∧ plan ret = Some (PyStr ("Executar task: " +:+ default EmptyString state.(task)))
    ∧ next_agent ret = Some "developer"
    ∧ current_instruction ret = Some (PyStr (default EmptyString state.(task)))
    ∧ iteration ret = Some 1
    ∧ routing_history ret = Some [].
Proof.
  intros Hp Hdec.
  destruct (parse_value_error _ Hdec) as [m Hparse].
  rewrite (supervisor_node_planning _ _ _ Hp).
  unfold plan_step, parse_or. rewrite Hparse. simpl.
  eexists. split; [reflexivity|]. simpl.
  repeat (split; [reflexivity|]). reflexivity.
Qed.

End FallbackMore.

Section SupervisorMore.
Context `{Host}.

Lemma phase_after_supervisor (state ret : AgentState) (llm : llm_outcome) (now : string) :
  planning_phase state = false →
  0 ≤ default 0 state.(iteration) →
  supervisor_node state llm now = Ok ret →
  planning_phase ret = false
  ∧ planning_phase (commit state ret) = false
  ∧ iteration ret = Some (default 0 state.(iteration) + 1).
Proof.
  intros Hp Hpos Hnode.
  destruct (supervisor_node_cases _ _ _ _ Hnode)
    as [(Hp' & _) | (_ & Hit & _ & _ & Hplan)]; [congruence|].
  assert (Hret : planning_phase ret = false).
  { unfold planning_phase. rewrite Hit, Hplan. simpl.
    apply orb_false_intro; [lia|done]. }
  split; [exact Hret|]. split; [|exact Hit].
  rewrite <- Hret. apply planning_phase_ext; simpl.
  - by rewrite Hit.
  - destruct (plan ret); [done|]. simpl in Hplan. discriminate.
Qed.

Lemma phase_after_worker (w : worker) (state ret : AgentState) (o : agent_outcome)
    (now : string) :
  worker_node w state o now = Ok ret →
  planning_phase (commit state ret) = planning_phase state
  ∧ iteration (commit state ret) = iteration state.
Proof.
  intros Hw.
  destruct (worker_node_cases _ _ _ _ _ Hw) as (Hit & Hplan & _).
  split.
  - apply planning_phase_ext; simpl; by rewrite ?Hit, ?Hplan, written_same.
  - simpl. by rewrite Hit, written_same.
Qed.

(** X6. Once in the routing phase, always in the routing phase: a routing
    call returns and stores a state that is again in the routing phase, with
    [iteration] one higher, and a worker that runs next leaves it so; the
    planning phase is not entered again. *)
Theorem routing_phase_is_kept (state ret : AgentState) (llm : llm_outcome) (now : string) :
  planning_phase state = false →
  0 ≤ default 0 state.(iteration) →
  supervisor_node state llm now = Ok ret →
  planning_phase ret = false
  ∧ planning_phase (commit state ret) = false
  ∧ iteration ret = Some (default 0 state.(iteration) + 1)
  ∧ ∀ w o now' ret',
      worker_node w (commit state ret) o now' = Ok ret' →
      planning_phase (commit (commit state ret) ret') = false.
Proof.
  intros Hp Hpos Hnode.
  destruct (phase_after_supervisor _ _ _ _ Hp Hpos Hnode) as (Hret & Hcommit & Hit).
  split; [exact Hret|]. split; [exact Hcommit|]. split; [exact Hit|].
  intros w o now' ret' Hw.
  destruct (phase_after_worker _ _ _ _ _ Hw) as [Hphase _]. congruence.
Qed.

(** X7. A planning call always names one of the five workers; the
    conditional edge leads to that worker when the ceiling is at least one,
    and to [END] when it is below one. *)
Theorem planning_dispatches_a_worker (state ret : AgentState) (llm : llm_outcome)
    (now : string) :
  planning_phase state = true →
  supervisor_node state llm now = Ok ret →
  (∃ w, next_agent ret = Some (worker_name w)
        ∧ (1 ≤ MAX_ITERATIONS →
           path_map (route_after_supervisor (commit state ret)) = Some (Some w)))
  ∧ (MAX_ITERATIONS < 1 → route_after_supervisor (commit state ret) = END).
Proof.
  intros Hp Hnode.
  assert (Hshape : iteration ret = Some 1
                   ∧ ∃ data, next_agent ret = Some (sanitize_first_agent data)).
  { unfold supervisor_node in Hnode. rewrite Hp in Hnode.
    destruct llm as [e|e|content]; try discriminate. simpl in Hnode.
    unfold plan_step in Hnode.
    destruct (parse_or _ content) as [data|]; [|discriminate].
    simpl in Hnode. injection Hnode as <-. simpl. split; [done|]. by exists data. }
  destruct Hshape as (Hit & data & Hnext).
  pose proof (sanitize_first_agent_valid data) as Hvalid.
  split.
  - assert (Hw : ∃ w, sanitize_first_agent data = worker_name w).
    { apply valid_agents_spec in Hvalid.
      destruct Hvalid as [E|[E|[E|[E|E]]]]; rewrite E;
        [by exists developer | by exists qa | by exists reviewer
        | by exists devops | by exists docs]. }
    destruct Hw as [w Hw]. exists w. rewrite Hnext, Hw. split; [done|].
    intros Hmax.
    assert (Hr : route_after_supervisor (commit state ret) = worker_name w).
    { destruct (route_cases (commit state ret)) as [Hend | (Hr & _)].
      - exfalso. revert Hend. apply route_dispatch_iff. simpl.
        rewrite Hnext, Hit, Hw. simpl. split; [apply worker_name_valid | lia].
      - rewrite Hr. simpl. by rewrite Hnext, Hw. }
    rewrite Hr. by destruct w.
  - intros Hmax. apply route_end_above_ceiling. simpl. rewrite Hit. simpl. lia.
Qed.

(** X8. A call of the supervisor that returns leaves [task], [repo_path],
    the human-approval keys, [final_summary], the artifacts and the agent
    outputs as it read them, and returns the messages it read with one
    [AIMessage] appended. *)
Theorem supervisor_node_frame (state ret : AgentState) (llm : llm_outcome) (now : string) :
  supervisor_node state llm now = Ok ret →
  task ret = state.(task)
  ∧ repo_path ret = state.(repo_path)
  ∧ human_approved ret = state.(human_approved)
  ∧ human_feedback ret = state.(human_feedback)
  ∧ final_summary ret = state.(final_summary)
  ∧ default ∅ ret.(artifacts) = default ∅ state.(artifacts)
  ∧ default [] ret.(agent_outputs) = default [] state.(agent_outputs)
  ∧ ∃ m, messages ret = state.(messages) ++ [AIMessage m].
Proof.
  unfold supervisor_node.
  destruct llm as [e|e|content]; try discriminate;
    destruct (planning_phase state); simpl; try discriminate.
  - destruct (_format_routing_history state); discriminate.
  - unfold plan_step. destruct (parse_or _ content); simpl; [|discriminate].
    intros [= <-]. simpl. repeat (split; [done|]). by eexists.
  - destruct (_format_routing_history state) as [[]|]; simpl; [|discriminate].
    unfold route_step. destruct (parse_or _ content) as [data|]; simpl; [|discriminate].
    intros [= <-]. simpl. repeat (split; [done|]).
    destruct (String.eqb (decided_agent data) "FINISH"); by eexists.
Qed.

Lemma format_last_entry (state : AgentState) (history : list routing_entry)
    (e : routing_entry) :
  routing_history state = Some (history ++ [e]) →
  sliceable (r_reason e) = false →
  ∃ m, _format_routing_history state = Raise (TypeError m).
Proof.
  intros Hh Hs. unfold _format_routing_history. rewrite Hh. simpl.
  destruct (forallb _ _) eqn:Hall; [|by eexists].
  rewrite forallb_forall in Hall.
  assert (Hin : In e (drop (length (history ++ [e]) - 8) (history ++ [e]))).
  { apply list_elem_of_In. rewrite length_app. simpl.
    rewrite drop_app_le by lia. apply elem_of_app. right. apply list_elem_of_here. }
  rewrite (Hall e Hin) in Hs. discriminate.
Qed.

(** X9. A decision whose [reason] is JSON [null], [true], [false] or a
    number is recorded as it is; the next routing call, directly or after a
    worker has run, raises [TypeError] while it formats the routing history
    for the prompt, before the model is called. *)
Theorem unsliceable_reason_breaks_next_call (state : AgentState) (content now : string)
    (data : pydict) :
  planning_phase state = false →
  0 ≤ default 0 state.(iteration) →
  _format_routing_history state = Ok tt →
  parse_or (fun _ => fallback_decision) content = Ok data →
  scalar (dict_get_default data "reason" (PyStr EmptyString)) = true →
  ∃ ret,
    supervisor_node state (LlmReplies content) now = Ok ret
    ∧ (∀ content' now', ∃ m,
         supervisor_node (commit state ret) (LlmReplies content') now'
         = Raise (TypeError m))
    ∧ (∀ w o now1 ret1 content' now',
         worker_node w (commit state ret) o now1 = Ok ret1 →
         ∃ m, supervisor_node (commit (commit state ret) ret1) (LlmReplies content') now'
              = Raise (TypeError m)).
Proof.
  intros Hp Hpos Hf Hdata Hsc.
  assert (Hs : sliceable (dict_get_default data "reason" (PyStr EmptyString)) = false).
  { by destruct (dict_get_default data "reason" (PyStr EmptyString)). }
  assert (Hnode : ∃ ret, supervisor_node state (LlmReplies content) now = Ok ret
                         ∧ ∃ e, routing_history ret
                                = Some (default [] state.(routing_history) ++ [e])
                                ∧ sliceable (r_reason e) = false).
  { rewrite (supervisor_node_routing _ _ _ Hp Hf). unfold route_step. rewrite Hdata.
    simpl. eexists. split; [reflexivity|]. simpl. eexists. split; [reflexivity|]. done. }
  destruct Hnode as (ret & Hnode & e & Hh & He).
  exists ret. split; [exact Hnode|].
  destruct (phase_after_supervisor _ _ _ _ Hp Hpos Hnode) as (_ & Hphase & _).
  assert (Hlast : routing_history (commit state ret)
                  = Some (default [] state.(routing_history) ++ [e])).
  { simpl. by rewrite Hh. }
  split.
  - intros content' now'.
    destruct (format_last_entry (commit state ret) (default [] state.(routing_history)) e)
      as [m Hm]; [exact Hlast|exact He|].
    exists m. unfold supervisor_node. by rewrite Hphase, Hm.
  - intros w o now1 ret1 content' now' Hw.
    destruct (phase_after_worker _ _ _ _ _ Hw) as [Hphase' _].
    destruct (worker_node_cases _ _ _ _ _ Hw) as (_ & _ & Hrh & _).
    destruct (format_last_entry (commit (commit state ret) ret1)
                (default [] state.(routing_history)) e) as [m Hm]; [|exact He|].
    { change (written (routing_history ret1) (routing_history (commit state ret))
              = Some (default [] (routing_history state) ++ [e])).
      by rewrite Hrh, written_same. }
    exists m. unfold supervisor_node. by rewrite Hphase', Hphase, Hm.
Qed.


End SupervisorMore.

Section NormaliserMore.

(** X11. Recording two reports in a row appends their two entries in order,
    both with the [iteration] of the state, and merges the artifacts with
    the later report winning over the earlier and both over the state's;
    when the two reports share no key, the order of recording does not
    change the artifacts. *)
Theorem record_twice (state : AgentState) (name1 out1 st1 now1 name2 out2 st2 now2 : string)
    (found1 found2 : gmap string pyval) :
  let u1 := record_agent_output state name1 out1 st1 (Some found1) now1 in
  let u2 := record_agent_output (with_updates state u1) name2 out2 st2 (Some found2) now2 in
  u_agent_outputs u2
  = default [] state.(agent_outputs)
    ++ [ {| o_agent := name1; o_output := out1; o_status := st1; o_timestamp := now1;
            o_iteration := default 0 state.(iteration) |};
         {| o_agent := name2; o_output := out2; o_status := st2; o_timestamp := now2;
            o_iteration := default 0 state.(iteration) |} ]
  ∧ u_artifacts u2 = found2 ∪ (found1 ∪ default ∅ state.(artifacts))
  ∧ (∀ k v, found2 !! k = Some v → u_artifacts u2 !! k = Some v)
  ∧ (∀ k v, found2 !! k = None → found1 !! k = Some v → u_artifacts u2 !! k = Some v)
  ∧ (found1 ##ₘ found2 →
     u_artifacts u2
     = u_artifacts
         (record_agent_output
            (with_updates state
               (record_agent_output state name2 out2 st2 (Some found2) now2))
            name1 out1 st1 (Some found1) now1)).
Proof.
  cbv zeta. rewrite !record_artifacts_union, !artifacts_with_updates.
  rewrite !record_artifacts_union. simpl.
  split. { by rewrite <- app_assoc. }
  split; [done|].
  split. { intros k v Hk. by apply lookup_union_Some_l. }
  split.
  { intros k v Hk2 Hk1. rewrite lookup_union_r by done. by apply lookup_union_Some_l. }
  intros Hdisj. rewrite !(assoc_L (∪)). f_equal. by apply map_union_comm.
Qed.

End NormaliserMore.

Section WorkerMore.
Context `{Host}.

Lemma all_strings_fmap (names : list string) :
  forallb (fun f => match f with PyStr _ => true | _ => false end) (PyStr <$> names) = true.
Proof. by induction names. Qed.

Lemma changed_ctx_well_formed (w : worker) (state : AgentState) :
  files_well_formed state → changed_ctx w state = Ok tt.
Proof.
  intros [Hnone | [names Hsome]]; unfold changed_ctx.
  - rewrite Hnone. simpl. by destruct w.
  - rewrite Hsome. simpl. destruct w; try done.
    + by destruct names.
    + by destruct names.
    + destruct names as [|n names]; [done|]. simpl. by rewrite all_strings_fmap.
Qed.

(** X12. With [files_changed] absent or a list of strings, as
    [developer_node] writes it, each of the five worker nodes returns,
    whatever its agent did, and leaves [iteration], [plan], [next_agent],
    [current_instruction], [routing_history], [task] and [repo_path] as it
    read them. *)
Theorem worker_returns_on_well_formed_files (w : worker) (state : AgentState)
    (o : agent_outcome) (now : string) :
  files_well_formed state →
  ∃ ret,
    worker_node w state o now = Ok ret
    ∧ iteration ret = state.(iteration)
    ∧ plan ret = state.(plan)
    ∧ next_agent ret = state.(next_agent)
    ∧ current_instruction ret = state.(current_instruction)
    ∧ routing_history ret = state.(routing_history)
    ∧ task ret = state.(task)
    ∧ repo_path ret = state.(repo_path).
Proof.
  intros Hwf. rewrite worker_node_ok by by apply changed_ctx_well_formed.
  eexists. split; [reflexivity|]. by simpl.
Qed.

End WorkerMore.

Section StatusMore.

Lemma index_cons (sub s : string) (c : ascii) :
  index 0 sub (String c s)
  = if String.prefix sub (String c s) then Some 0%nat
    else match index 0 sub s with
         | Some n => Some (S n)
         | None => None
         end.
Proof. reflexivity. Qed.

Lemma contains_cons (sub s : string) (c : ascii) :
  Text.contains sub (String c s)
  = String.prefix sub (String c s) || Text.contains sub s.
Proof.
  unfold Text.contains. rewrite index_cons.
  destruct (String.prefix sub (String c s)); [done|].
  by destruct (index 0 sub s).
Qed.

Lemma count_from_cons (skip : nat) (sub s : string) (c : ascii) :
  count_from skip sub (String c s)
  = match skip with
    | S k => count_from k sub s
    | O =>
        if String.prefix sub (String c s)
        then S (count_from (String.length sub - 1) sub s)
        else count_from 0 sub s
    end.
Proof. reflexivity. Qed.

Lemma count_from_pos (sub s : string) (skip : nat) :
  (0 < count_from skip sub s)%nat → Text.contains sub s = true.
Proof.
  revert skip. induction s as [|c s IH]; intros skip.
  - simpl. lia.
  - rewrite count_from_cons, contains_cons. destruct skip as [|k].
    + destruct (String.prefix sub (String c s)); [done|].
      intros Hc. by rewrite (IH _ Hc).
    + intros Hc. rewrite (IH _ Hc). apply orb_true_r.
Qed.

(** X13. [_infer_status] of the developer answers [error] exactly when the
    lowered text holds [erro] more than twice, or the text holds the cross
    mark and the lowered text one of the error keywords; it answers one of
    [error], [warning] and [success], and [success] when no keyword of
    either list occurs. A report with error keywords, fewer than three
    [erro] and no cross mark is therefore never an [error]. *)
Theorem infer_status_error_iff (lower : string → string) (output : string) :
  (_infer_status lower output = "error"
   ↔ (2 < count "erro" (lower output))%nat
     ∨ (Text.contains "❌" output = true
        ∧ any_in error_keywords (lower output) = true))
  ∧ (_infer_status lower output = "error" ∨ _infer_status lower output = "warning"
     ∨ _infer_status lower output = "success")
  ∧ (any_in error_keywords (lower output) = false →
     any_in warning_keywords (lower output) = false →
     _infer_status lower output = "success").
Proof.
  unfold _infer_status.
  assert (Hcount : (2 < count "erro" (lower output))%nat →
                   any_in error_keywords (lower output) = true).
  { intros Hc. unfold any_in, error_keywords. simpl.
    rewrite (count_from_pos "erro" _ 0%nat) by (unfold count in Hc; lia). done. }
  split; [|split].
  - split.
    + destruct (any_in error_keywords _ && _) eqn:Hcond.
      * intros _. apply andb_true_iff in Hcond as [Hany Hor].
        apply orb_true_iff in Hor as [Hlt | Hx].
        -- left. by apply Nat.ltb_lt.
        -- by right.
      * by destruct (any_in warning_keywords _).
    + intros [Hc | [Hx Hany]].
      * rewrite (Hcount Hc). apply Nat.ltb_lt in Hc. by rewrite Hc.
      * rewrite Hany, Hx. by rewrite orb_true_r.
  - destruct (any_in error_keywords _ && _); [by left|].
    destruct (any_in warning_keywords _); tauto.
  - intros -> ->. done.
Qed.

(** X14. [_infer_qa_status] answers [error] whenever the lowered text holds
    [failed]; it never answers [error] when the text holds [passed] and no
    [failed]; and it answers [error] only when a critical keyword occurs. *)
Theorem infer_qa_status_failed (lower : string → string) (output : string) :
  (Text.contains "failed" (lower output) = true → _infer_qa_status lower output = "error")
  ∧ (Text.contains "passed" (lower output) = true →
     Text.contains "failed" (lower output) = false →
     _infer_qa_status lower output = "warning"
     ∨ _infer_qa_status lower output = "success")
  ∧ (_infer_qa_status lower output = "error" →
     any_in critical (lower output) = true).
Proof.
  unfold _infer_qa_status.
  split; [|split].
  - intros Hf. unfold any_in, critical. simpl. rewrite Hf. simpl.
    by rewrite andb_false_r.
  - intros Hp Hf. rewrite Hp, Hf.
    change (negb (true && negb false)) with false. rewrite andb_false_r.
    destruct (any_in warnings (lower output)); tauto.
  - destruct (any_in critical (lower output)); [done|].
    rewrite andb_false_l.
    by destruct (any_in warnings (lower output)).
Qed.

(** X15. [_infer_review_verdict]: [reprovado] in the lowered text gives
    [error] and [REPROVADO] whatever else the text holds; the status is
    [success] exactly when [aprovado] occurs and neither [reprovado], nor
    [precisa de ajustes], nor the warning sign together with [ajustes];
    status and verdict go together. *)
Theorem review_verdict_cases (lower : string → string) (output : string) :
  let text := lower output in
  let status := (_infer_review_verdict lower output).1 in
  let verdict := (_infer_review_verdict lower output).2 in
  (Text.contains "reprovado" text = true → (status, verdict) = ("error", "REPROVADO"))
  ∧ (status = "success"
     ↔ Text.contains "aprovado" text = true
       ∧ Text.contains "reprovado" text = false
       ∧ Text.contains "precisa de ajustes" text = false
       ∧ (Text.contains "⚠️" output && Text.contains "ajustes" text) = false)
  ∧ (status = "success" ↔ verdict = "APROVADO")
  ∧ (status = "error" ↔ verdict = "REPROVADO")
  ∧ (status = "warning" ↔ verdict = "PRECISA_AJUSTES" ∨ verdict = "INCONCLUSIVO").
Proof.
  cbv zeta. unfold _infer_review_verdict.
  destruct (Text.contains "reprovado" (lower output)) eqn:Hr;
    destruct (Text.contains "❌" output);
    destruct (Text.contains "precisa de ajustes" (lower output)) eqn:Hp;
    destruct (Text.contains "⚠️" output);
    destruct (Text.contains "ajustes" (lower output));
    destruct (Text.contains "aprovado" (lower output)) eqn:Ha;
    destruct (Text.contains "✅" output); simpl;
    repeat split; intros; try done; try discriminate;
    try (by left); try (by right);
    repeat match goal with
           | Hx : _ ∧ _ |- _ => destruct Hx
           | Hx : _ ∨ _ |- _ => destruct Hx
           end; try done; try discriminate.
Qed.

End StatusMore.

(** ** The prompt text of the agent outputs *)

Section PromptMore.

(** X16. [_format_agent_outputs] reads the last six outputs only, newest
    first: two states whose outputs end in the same six entries give the
    same text, the blocks of these six in reverse order. *)
Theorem format_outputs_reads_last_six (state1 state2 : AgentState)
    (older1 older2 recent : list output_entry) :
  agent_outputs state1 = Some (older1 ++ recent) →
  agent_outputs state2 = Some (older2 ++ recent) →
  length recent = 6%nat →
  _format_agent_outputs state1 = _format_agent_outputs state2
  ∧ _format_agent_outputs state1 = String.concat nl (format_output <$> rev recent).
Proof.
  intros H1 H2 Hlen.
  assert (Hwin : ∀ older, recent_outputs (older ++ recent) = rev recent).
  { intros older. unfold recent_outputs. rewrite length_app, Hlen.
    replace (length older + 6 - 6)%nat with (length older) by lia.
    by rewrite drop_app_length. }
  assert (Hfmt : ∀ state older, agent_outputs state = Some (older ++ recent) →
                 _format_agent_outputs state
                 = String.concat nl (format_output <$> rev recent)).
  { intros state older Hs. unfold _format_agent_outputs. rewrite Hs. simpl.
    rewrite <- (Hwin older).
    destruct (older ++ recent) eqn:Happ; [|done].
    apply (f_equal length) in Happ. rewrite length_app, Hlen in Happ.
    simpl in Happ. lia. }
  split; [|by eapply Hfmt].
  by rewrite (Hfmt _ _ H1), (Hfmt _ _ H2).
Qed.

End PromptMore.

(** ** The path guard *)

Section PathGuard.

Lemma prefix_cons (a b : ascii) (s1 s2 : string) :
  String.prefix (String a s1) (String b s2)
  = if ascii_dec a b then String.prefix s1 s2 else false.
Proof. reflexivity. Qed.

Lemma prefix_app (base p q : string) :
  String.prefix (base +:+ p) (base +:+ q) = String.prefix p q.
Proof.
  induction base as [|a base IH]; [done|]. simpl.
  destruct (ascii_dec a a); [exact IH | done].
Qed.

Lemma prefix_of_app (base tail : string) : String.prefix base (base +:+ tail) = true.
Proof.
  induction base as [|a base IH]; [by destruct tail|]. simpl.
  destruct (ascii_dec a a); [exact IH | done].
Qed.

Lemma prefix_refl (base : string) : String.prefix base base = true.
Proof.
  induction base as [|a base IH]; [done|]. rewrite prefix_cons.
  destruct (ascii_dec a a); [exact IH | done].
Qed.

Lemma app_eq_self (base tail : string) : base +:+ tail = base → tail = EmptyString.
Proof.
  induction base as [|a base IH]; [done|]. simpl. intros [= Heq]. by apply IH.
Qed.

(** X17. The path guard compares texts: a resolved path that continues the
    text of the base directory with anything but a separator, a sibling
    such as [/srv/repo-private] of [/srv/repo], is accepted although it is
    not under the base. *)
Theorem safe_path_accepts_a_sibling (resolve : string → string → string)
    (base raw : string) (c : ascii) (rest : string) :
  ends_with_sep base = false →
  c ≠ "/"%char →
  resolve base raw = base +:+ String c rest →
  _safe_path resolve base raw = Ok (base +:+ String c rest)
  ∧ ¬ under base (base +:+ String c rest).
Proof.
  intros Hsep Hc Hres. split.
  - unfold _safe_path, Text.startswith. by rewrite Hres, prefix_of_app.
  - unfold under. rewrite Hsep. intros [Heq | Hpre].
    + by apply app_eq_self in Heq.
    + rewrite prefix_app, prefix_cons in Hpre.
      destruct (ascii_dec "/" c) as [Heq|]; [by symmetry in Heq | done].
Qed.

Lemma safe_path_accepts_a_sibling_witness :
  _safe_path lexical_resolve "/srv/repo" "../repo-private/key"
  = Ok "/srv/repo-private/key"
  ∧ ¬ under "/srv/repo" "/srv/repo-private/key".
Proof.
  apply (safe_path_accepts_a_sibling lexical_resolve "/srv/repo" "../repo-private/key"
           "-" "private/key").
  - reflexivity.
  - discriminate.
  - reflexivity.
Defined.

Lemma under_prefix (base p : string) : under base p → String.prefix base p = true.
Proof.
  intros [-> | Hpre]; [apply prefix_refl|].
  revert p Hpre. destruct (ends_with_sep base); [done|].
  induction base as [|a base IH]; intros p; [by destruct p|].
  destruct p as [|b p]; [done|]. simpl.
  destruct (ascii_dec a b); [apply IH | done].
Qed.

(** X18. The path guard never rejects a path under the base directory; when
    it rejects, it raises [ValueError] and the path is not under the base;
    what it accepts it returns as resolved. *)
Theorem safe_path_keeps_paths_under_base (resolve : string → string → string)
    (base raw : string) :
  (under base (resolve base raw) →
   _safe_path resolve base raw = Ok (resolve base raw))
  ∧ (∀ e, _safe_path resolve base raw = Raise e →
          (∃ m, e = ValueError m) ∧ ¬ under base (resolve base raw))
  ∧ (∀ p, _safe_path resolve base raw = Ok p → p = resolve base raw).
Proof.
  unfold _safe_path, Text.startswith.
  split; [|split].
  - intros Hu. by rewrite (under_prefix _ _ Hu).
  - intros e. destruct (String.prefix base (resolve base raw)) eqn:Hp; [done|].
    intros [= <-]. split; [by eexists|].
    intros Hu. apply under_prefix in Hu. congruence.
  - intros p. destruct (String.prefix base (resolve base raw)); [|done].
    by intros [= <-].
Qed.

End PathGuard.

(** ** Runs: termination, numbering, growth *)

Section RunMore.
Context `{Host}.

Lemma run_more_fuel (wd : world) (m fuel k : nat) (n : node) (state : AgentState)
    (log : list step) :
  (∀ n' s', (run wd fuel k n state log).1 ≠ Unfinished n' s') →
  run wd (fuel + m) k n state log = run wd fuel k n state log.
Proof.
  revert k n state log. induction fuel as [|fuel IH]; intros k n state log Hne.
  - exfalso. by apply (Hne n state).
  - simpl in *. destruct n as [|a].
    + destruct (supervisor_node state (llm_at wd k) (clock wd k)) as [ret|e]; [|done].
      destruct (path_map (route_after_supervisor (commit state ret))) as [[a|]|];
        [|done|done].
      by apply IH.
    + destruct (worker_node a state (agent_at wd k) (clock wd k)) as [ret|e]; [|done].
      by apply IH.
Qed.

Lemma run_log_length (wd : world) (fuel k : nat) (n : node) (state : AgentState)
    (log : list step) :
  (length (run wd fuel k n state log).2 ≤ length log + fuel)%nat.
Proof.
  revert k n state log. induction fuel as [|fuel IH]; intros k n state log.
  - simpl. lia.
  - simpl. destruct n as [|a].
    + destruct (supervisor_node state (llm_at wd k) (clock wd k)) as [ret|e];
        [|simpl; lia].
      destruct (path_map (route_after_supervisor (commit state ret))) as [[a|]|].
      * etransitivity; [apply IH|]. rewrite length_app. simpl. lia.
      * simpl. rewrite length_app. simpl. lia.
      * simpl. rewrite length_app. simpl. lia.
    + destruct (worker_node a state (agent_at wd k) (clock wd k)) as [ret|e];
        [|simpl; lia].
      etransitivity; [apply IH|]. rewrite length_app. simpl. lia.
Qed.

(** Once the plan is written, what is left of a run is bounded by the
    distance of [iteration] to the ceiling. *)
Lemma run_ends (wd : world) (fuel k : nat) (n : node) (state : AgentState)
    (log : list step) (i : Z) :
  planning_phase state = false →
  iteration state = Some i → 0 ≤ i →
  match n with
  | supervisor => (1 + 2 * Z.to_nat (MAX_ITERATIONS - i) ≤ fuel)%nat
  | agent _ => i ≤ MAX_ITERATIONS ∧ (2 + 2 * Z.to_nat (MAX_ITERATIONS - i) ≤ fuel)%nat
  end →
  ∀ n' s', (run wd fuel k n state log).1 ≠ Unfinished n' s'.
Proof.
  revert k n state log i.
  induction fuel as [|fuel IH]; intros k n state log i Hp Hi Hpos Hfuel n' s'.
  - destruct n; lia.
  - simpl. destruct n as [|a].
    + destruct (supervisor_node state (llm_at wd k) (clock wd k)) as [ret|e] eqn:Hnode;
        [|done].
      assert (Hpos' : 0 ≤ default 0 state.(iteration)) by (by rewrite Hi).
      destruct (phase_after_supervisor _ _ _ _ Hp Hpos' Hnode) as (_ & Hp' & Hit).
      rewrite Hi in Hit. simpl in Hit.
      destruct (path_map (route_after_supervisor (commit state ret))) as [[a|]|] eqn:Hpm;
        [|done|done].
      apply path_map_worker in Hpm as [_ Hne].
      destruct (route_cases (commit state ret)) as [Hend | (_ & _ & Hle)]; [done|].
      simpl in Hle. rewrite Hit in Hle. simpl in Hle.
      apply (IH _ _ _ _ (i + 1)); [done | by simpl; rewrite Hit | lia | ].
      split; [lia | lia].
    + destruct (worker_node a state (agent_at wd k) (clock wd k)) as [ret|e] eqn:Hnode;
        [|done].
      destruct (phase_after_worker _ _ _ _ _ Hnode) as [Hp' Hit].
      apply (IH _ _ _ _ i); [congruence | congruence | lia | lia].
Qed.

(** X19. When the planning call writes a plan that is not empty, a run
    executes at most [2 * MAX_ITERATIONS + 1] nodes: with that much fuel or
    more it is never left unfinished, and its outcome and steps are those at
    that fuel. *)
Theorem run_ends_within_budget (task0 resolved : string) (wd : world) (fuel : nat) :
  (∀ ret, supervisor_node (create_initial_state task0 resolved) (llm_at wd 0)
            (clock wd 0) = Ok ret →
          truthy (default (PyStr EmptyString) (plan ret)) = true) →
  (node_budget ≤ fuel)%nat →
  (∀ n s, (run_task task0 resolved wd fuel).1 ≠ Unfinished n s)
  ∧ run_task task0 resolved wd fuel = run_task task0 resolved wd node_budget
  ∧ (length (run_task task0 resolved wd fuel).2 ≤ node_budget)%nat.
Proof.
  intros Hplan Hfuel.
  assert (Hends : ∀ n s, (run_task task0 resolved wd node_budget).1 ≠ Unfinished n s).
  { intros n s. unfold run_task, node_budget. rewrite Nat.add_1_r. simpl.
    destruct (supervisor_node (create_initial_state task0 resolved) (llm_at wd 0)
                (clock wd 0)) as [ret|e] eqn:Hnode; [|done].
    specialize (Hplan ret eq_refl).
    destruct (supervisor_node_cases _ _ _ _ Hnode)
      as [(_ & Hit & _) | (Hp & _)]; [|discriminate].
    set (state' := commit (create_initial_state task0 resolved) ret).
    assert (Hit' : iteration state' = Some 1) by (subst state'; simpl; by rewrite Hit).
    assert (Hp' : planning_phase state' = false).
    { unfold planning_phase. rewrite Hit'. subst state'. simpl.
      destruct (plan ret) as [p|]; simpl in *; [by rewrite Hplan | discriminate]. }
    destruct (path_map (route_after_supervisor state')) as [[a|]|] eqn:Hpm;
      [|done|done].
    apply path_map_worker in Hpm as [_ Hne].
    destruct (route_cases state') as [Hend | (_ & _ & Hle)]; [done|].
    rewrite Hit' in Hle. simpl in Hle.
    apply (run_ends _ _ _ _ _ _ 1); [done | done | lia | ].
    split; [lia | lia]. }
  assert (Heq : run_task task0 resolved wd fuel = run_task task0 resolved wd node_budget).
  { replace fuel with (node_budget + (fuel - node_budget))%nat by lia.
    apply run_more_fuel, Hends. }
  rewrite Heq. split; [exact Hends|]. split; [done|].
  etransitivity; [apply run_log_length|]. simpl. lia.
Qed.

Lemma planning_step_planless (state : AgentState) (content now : string)
    (data : pydict) :
  planning_phase state = true →
  _parse_json_response content = Ok data →
  truthy (dict_get_default data "plan" (PyStr EmptyString)) = false →
  ∃ ret,
    supervisor_node state (LlmReplies content) now = Ok ret
    ∧ planning_phase (commit state ret) = true
    ∧ iteration (commit state ret) = Some 1
    ∧ next_agent (commit state ret) = Some (sanitize_first_agent data).
Proof.
  intros Hp Hparse Hplan. rewrite (supervisor_node_planning _ _ _ Hp).
  unfold plan_step, parse_or. rewrite Hparse. simpl.
  eexists. split; [reflexivity|]. unfold planning_phase. simpl.
  split; [|done].
  assert (Hd : ∀ v d, dict_get_default (dict_set data "first_agent" v) "plan" d
                      = dict_get_default data "plan" d).
  { intros v d. unfold dict_get_default. by rewrite dict_get_set_ne. }
  by rewrite Hd, Hplan.
Qed.

Lemma route_to_first_agent (state : AgentState) (name : string) :
  1 ≤ MAX_ITERATIONS →
  next_agent state = Some name → name ∈ valid_agents →
  iteration state = Some 1 →
  ∃ a, path_map (route_after_supervisor state) = Some (Some a) ∧ worker_name a = name.
Proof.
  intros Hmax Hnext Hvalid Hit.
  assert (Hr : route_after_supervisor state = name).
  { destruct (route_cases state) as [Hend | (Hr & _)].
    - exfalso. revert Hend. apply route_dispatch_iff.
      rewrite Hnext, Hit. simpl. split; [done | lia].
    - by rewrite Hr, Hnext. }
  rewrite Hr. apply valid_agents_spec in Hvalid.
  destruct Hvalid as [->|[->|[->|[->| ->]]]];
    [by exists developer | by exists qa | by exists reviewer
    | by exists devops | by exists docs].
Qed.

Lemma planless_never_final (wd : world) (fuel k : nat) (n : node) (state : AgentState)
    (log : list step) :
  1 ≤ MAX_ITERATIONS →
  (∀ k, ∃ content data,
      llm_at wd k = LlmReplies content
      ∧ _parse_json_response content = Ok data
      ∧ truthy (dict_get_default data "plan" (PyStr EmptyString)) = false) →
  planning_phase state = true →
  ∀ s, (run wd fuel k n state log).1 ≠ Final s.
Proof.
  intros Hmax Hw. revert k n state log.
  induction fuel as [|fuel IH]; intros k n state log Hp s; [done|].
  simpl. destruct n as [|a].
  - destruct (Hw k) as (content & data & Hllm & Hparse & Hplan). rewrite Hllm.
    destruct (planning_step_planless state content (clock wd k) data Hp Hparse Hplan)
      as (ret & Hnode & Hp' & Hit & Hnext).
    rewrite Hnode.
    destruct (route_to_first_agent _ _ Hmax Hnext (sanitize_first_agent_valid data) Hit)
      as (a & Hpm & _).
    rewrite Hpm. by apply IH.
  - destruct (worker_node a state (agent_at wd k) (clock wd k)) as [ret|e] eqn:Hnode;
      [|done].
    destruct (phase_after_worker _ _ _ _ _ Hnode) as [Hp' _].
    apply IH. congruence.
Qed.

Lemma planless_developer_unfinished (wd : world) (fuel k : nat) (n : node)
    (state : AgentState) (log : list step) :
  1 ≤ MAX_ITERATIONS →
  (∀ k, ∃ content data,
      llm_at wd k = LlmReplies content
      ∧ _parse_json_response content = Ok data
      ∧ truthy (dict_get_default data "plan" (PyStr EmptyString)) = false
      ∧ sanitize_first_agent data = "developer") →
  planning_phase state = true →
  n = supervisor ∨ n = agent developer →
  ∃ n' s', (run wd fuel k n state log).1 = Unfinished n' s'.
Proof.
  intros Hmax Hw. revert k n state log.
  induction fuel as [|fuel IH]; intros k n state log Hp Hn; [by eexists _, _|].
  simpl. destruct Hn as [-> | ->].
  - destruct (Hw k) as (content & data & Hllm & Hparse & Hplan & Hdev). rewrite Hllm.
    destruct (planning_step_planless state content (clock wd k) data Hp Hparse Hplan)
      as (ret & Hnode & Hp' & Hit & Hnext).
    rewrite Hnode.
    destruct (route_to_first_agent _ _ Hmax Hnext (sanitize_first_agent_valid data) Hit)
      as (a & Hpm & Ha).
    rewrite Hpm. apply IH; [done|]. right. f_equal.
    rewrite Hdev in Ha. by destruct a.
  - rewrite (worker_node_ok developer) by apply developer_ctx.
    apply IH; [|by left].
    match goal with
    | |- planning_phase (commit state ?r) = true =>
        destruct (phase_after_worker developer state r (agent_at wd k) (clock wd k))
          as [Hp' _]
    end; [|congruence].
    by rewrite (worker_node_ok developer) by apply developer_ctx.
Qed.

(** X20. While the planning replies hold no plan, the ceiling does not end
    the run: with a ceiling of at least one, planning is repeated after every
    worker, with [iteration] back at 1, and no run is final at any fuel;
    when moreover the first agent is always the developer, every run is
    unfinished at every fuel. *)
Theorem empty_plans_never_finish (task0 resolved : string) (wd : world) (fuel : nat) :
  1 ≤ MAX_ITERATIONS →
  (∀ k, ∃ content data,
      llm_at wd k = LlmReplies content
      ∧ _parse_json_response content = Ok data
      ∧ truthy (dict_get_default data "plan" (PyStr EmptyString)) = false) →
  (∀ s, (run_task task0 resolved wd fuel).1 ≠ Final s)
  ∧ ((∀ k content data,
        llm_at wd k = LlmReplies content →
        _parse_json_response content = Ok data →
        sanitize_first_agent data = "developer") →
     ∃ n s, (run_task task0 resolved wd fuel).1 = Unfinished n s).
Proof.
  intros Hmax Hw. split.
  - intros s. by apply planless_never_final.
  - intros Hdev. apply planless_developer_unfinished; [done| |done|by left].
    intros k. destruct (Hw k) as (content & data & Hllm & Hparse & Hplan).
    exists content, data. repeat (split; [done|]). by eapply Hdev.
Qed.

Lemma numbered_run (wd : world) (fuel k : nat) (n : node) (state : AgentState)
    (log log' : list step) (o : outcome) :
  numbered state →
  run wd fuel k n state log = (o, log') →
  ∀ s, state_of o = Some s → numbered s.
Proof.
  intros Hinv Hrun.
  eapply (run_invariant wd (fun _ s _ => numbered s)
            (fun o _ => ∀ s, state_of o = Some s → numbered s));
    [ | | | | exact Hinv | exact Hrun ].
  - clear. intros state log llm now ret
      (history & i & Hh & Hi & Hnum & Hlen & Hphase) Hnode state' log'.
    assert (Hinv' : numbered state').
    { subst state'. unfold numbered. simpl.
      destruct (supervisor_node_cases _ _ _ _ Hnode)
        as [(Hp & Hit & Hrh & _) | (Hp & Hit & (e & Hrh & He) & _ & Hplan)].
      - rewrite Hit, Hrh. simpl. exists [], 1.
        split; [done|]. split; [done|]. split; [by intros ? ? [=]|].
        split; [by right | done].
      - rewrite Hh, Hi in *. simpl in *.
        apply planning_phase_false in Hp as Hnz. rewrite Hi in Hnz. simpl in Hnz.
        destruct Hnz as [Hnz _].
        destruct Hlen as [[? _] | Hlen]; [done|].
        rewrite Hit, Hrh. simpl. exists (history ++ [e]), (i + 1).
        split; [done|]. split; [done|].
        split.
        { intros j e' Hj.
          apply lookup_app_Some in Hj as [Hj | [Hge Hj]]; [by apply Hnum|].
          apply list_lookup_singleton_Some in Hj as [Hj0 <-]. lia. }
        split. { right. rewrite length_app. simpl. lia. }
        intros _.
        assert (Hpos : 0 ≤ default 0 (iteration state)) by (rewrite Hi; simpl; lia).
        by destruct (phase_after_supervisor _ _ _ _ Hp Hpos Hnode) as (_ & ? & _). }
    split; [done|]. by intros _ s [= <-].
  - clear. intros a state log o now ret
      (history & i & Hh & Hi & Hnum & Hlen & Hphase) Hnode.
    destruct (worker_node_cases _ _ _ _ _ Hnode) as (Hit & Hplan & Hrh & _).
    destruct (phase_after_worker _ _ _ _ _ Hnode) as [Hp' _].
    exists history, i. simpl. rewrite Hit, Hrh, !written_same.
    repeat (split; [done|]). intros Hne. rewrite Hp'. by apply Hphase.
  - clear. by intros n state log Hinv s [= <-].
  - clear. by intros n state log e _ s [=].
Qed.

(** X21. In every state that a run from the initial state reaches, the
    entries of the routing history are numbered 1, 2, 3 and so on by their
    [iteration], [iteration] is one more than their number once there is
    one, and with a ceiling that is not negative there are at most
    [MAX_ITERATIONS] of them. *)
Theorem routing_entries_are_numbered (task0 resolved : string) (wd : world)
    (fuel : nat) (o : outcome) (state : AgentState) (log : list step) :
  run_task task0 resolved wd fuel = (o, log) →
  state_of o = Some state →
  ∃ history,
    routing_history state = Some history
    ∧ (∀ j e, history !! j = Some e → r_iteration e = Z.of_nat j + 1)
    ∧ (history ≠ [] → iteration state = Some (Z.of_nat (length history) + 1))
    ∧ (0 ≤ MAX_ITERATIONS → Z.of_nat (length history) ≤ MAX_ITERATIONS).
Proof.
  intros Hrun Hstate. unfold run_task in Hrun.
  assert (Hnum : numbered state).
  { eapply numbered_run; [|exact Hrun|exact Hstate].
    exists [], 0. simpl. split; [done|]. split; [done|].
    split; [by intros ? ? [=]|]. split; [by left | done]. }
  destruct Hnum as (history & i & Hh & Hi & Hnum & Hlen & _).
  exists history. split; [done|]. split; [done|].
  split.
  { intros Hne. destruct Hlen as [[_ ?] | ->]; done. }
  intros Hmax.
  eapply iteration_invariant in Hrun as [Hbound _];
    [ |done| exists 0; simpl; split; [done | lia] | by constructor].
  destruct (Hbound _ Hstate) as (i' & Hi' & Hle).
  rewrite Hi in Hi'. injection Hi' as <-.
  destruct Hlen as [[_ ->] | ->]; simpl; lia.
Qed.

Lemma supervisor_messages (state ret : AgentState) (llm : llm_outcome) (now : string) :
  supervisor_node state llm now = Ok ret →
  length (messages ret) = S (length (messages state)).
Proof.
  unfold supervisor_node.
  destruct llm as [e|e|content]; try discriminate;
    destruct (planning_phase state); simpl; try discriminate.
  - destruct (_format_routing_history state); discriminate.
  - unfold plan_step. destruct (parse_or _ content); simpl; [|discriminate].
    intros [= <-]. simpl. rewrite length_app. simpl. lia.
  - destruct (_format_routing_history state) as [[]|]; simpl; [|discriminate].
    unfold route_step. destruct (parse_or _ content) as [data|]; simpl; [|discriminate].
    intros [= <-]. simpl. rewrite length_app. simpl. lia.
Qed.

Lemma worker_messages (w : worker) (state ret : AgentState) (o : agent_outcome)
    (now : string) :
  worker_node w state o now = Ok ret →
  length (messages ret) = S (length (messages state)).
Proof.
  unfold worker_node. destruct (changed_ctx w state) as [[]|]; simpl; [|discriminate].
  destruct (report_of w o) as [[output status] found].
  intros [= <-]. simpl. rewrite length_app. simpl. lia.
Qed.

(** What the two channels with [operator.add] hold before a node runs. *)
Lemma doubling_invariant (wd : world) (fuel k : nat) (n : node) (state : AgentState)
    (log log' : list step) (o : outcome) :
  (length (messages state) + 1 = 2 ^ S (length log))%nat →
  match n with
  | supervisor =>
      (3 * length (default [] (agent_outputs state)) + 1 = 4 ^ dispatches log)%nat
  | agent _ =>
      (3 * length (default [] (agent_outputs state)) + 2 = 2 * 4 ^ dispatches log)%nat
  end →
  run wd fuel k n state log = (o, log') →
  ∀ s, o = Final s →
       (3 * length (default [] (agent_outputs s)) + 2 = 2 * 4 ^ dispatches log')%nat
       ∧ (length (messages s) + 1 = 2 ^ S (length log'))%nat.
Proof.
  intros Hm Hl Hrun.
  eapply (run_invariant wd
            (fun n s l =>
               (length (messages s) + 1 = 2 ^ S (length l))%nat
               ∧ match n with
                 | supervisor =>
                     (3 * length (default [] (agent_outputs s)) + 1
                      = 4 ^ dispatches l)%nat
                 | agent _ =>
                     (3 * length (default [] (agent_outputs s)) + 2
                      = 2 * 4 ^ dispatches l)%nat
                 end)
            (fun o l => ∀ s, o = Final s →
               (3 * length (default [] (agent_outputs s)) + 2 = 2 * 4 ^ dispatches l)%nat
               ∧ (length (messages s) + 1 = 2 ^ S (length l))%nat));
    [ | | | | split; [exact Hm | exact Hl] | exact Hrun ].
  - clear. intros state log llm now ret [Hm Hl] Hnode state' log'.
    assert (Hboth :
      (3 * length (default [] (agent_outputs state')) + 2 = 2 * 4 ^ dispatches log')%nat
      ∧ (length (messages state') + 1 = 2 ^ S (length log'))%nat).
    { subst state' log'. rewrite (stored_outputs_after_supervisor _ _ _ _ Hnode).
      rewrite dispatches_snoc. simpl default. simpl messages.
      rewrite !length_app, (supervisor_messages _ _ _ _ Hnode). simpl length.
      change (is_supervisor _) with true. cbv iota. rewrite Nat.add_0_r.
      replace (length log + 1)%nat with (S (length log)) by lia.
      rewrite (Nat.pow_succ_r' 2 (S (length log))). lia. }
    split.
    + intros a _. split; [apply Hboth | apply Hboth].
    + intros _ s [= <-]. exact Hboth.
  - clear. intros a state log o now ret [Hm Hl] Hnode.
    destruct (stored_outputs_after_worker _ _ _ _ _ Hnode) as [entry Hout].
    rewrite Hout, dispatches_snoc. simpl default. simpl messages.
    rewrite !length_app, (worker_messages _ _ _ _ _ Hnode). simpl length.
    change (is_supervisor _) with false. cbv iota.
    replace (length log + 1)%nat with (S (length log)) by lia.
    replace (dispatches log + 1)%nat with (S (dispatches log)) by lia.
    rewrite (Nat.pow_succ_r' 2 (S (length log))), (Nat.pow_succ_r' 4 (dispatches log)).
    split; lia.
  - clear. by intros n state log _ s [=].
  - clear. by intros n state log e _ s [=].
Qed.

(** X22. The two channels annotated with [operator.add] double at every
    node, since every node returns the whole list: at the end of a completed
    run of [n] nodes of which [d] are workers, [messages] holds
    [2 ^ (n + 1) - 1] entries and [agent_outputs] holds
    [2 * (4 ^ d - 1) / 3]. *)
Theorem stored_lists_double (task0 resolved : string) (wd : world) (fuel : nat)
    (state : AgentState) (log : list step) :
  run_task task0 resolved wd fuel = (Final state, log) →
  (3 * length (default [] (agent_outputs state)) + 2 = 2 * 4 ^ dispatches log)%nat
  ∧ (length (messages state) + 1 = 2 ^ S (length log))%nat.
Proof.
  intros Hrun. unfold run_task in Hrun.
  eapply doubling_invariant; [| |exact Hrun|reflexivity]; reflexivity.
Qed.







End RunMore.

(** ** The further properties on concrete inputs *)

Example infer_status_ex :
  _infer_status Text.lower "Error: could not write the file" = "success".
Proof. reflexivity. Qed.

Example infer_qa_status_ex :
  _infer_qa_status Text.lower "5 passed, 1 error in teardown" = "success".
Proof. reflexivity. Qed.

Example review_verdict_ex :
  _infer_review_verdict Text.lower "Veredicto: NÃO APROVADO" = ("success", "APROVADO").
Proof. reflexivity. Qed.

Example safe_path_escape_ex :
  _safe_path lexical_resolve "/srv/repo" "../other/key"
  = Raise (ValueError ("Acesso negado: '../other/key' está fora do workspace "
                       +:+ "permitido (/srv/repo).")).
Proof. reflexivity. Qed.

Example safe_path_inside_ex :
  _safe_path lexical_resolve "/srv/repo" "src/./a/../b.py" = Ok "/srv/repo/src/b.py".
Proof. reflexivity. Qed.

Section MoreAtDefaultCeiling.
#[local] Existing Instance Demo.default_host.

Lemma parse_keeps_other_keys_witness :
  ∃ data a,
    decode (extract_json_text Demo.qa_reply) = Some (PyDict data)
    ∧ dict_get [("next_agent", PyStr "qa"); ("instruction", PyStr "run pytest");
                ("reason", PyStr "new code")] "next_agent" = Some (PyStr a)
    ∧ a ∈ VALID_AGENTS
    ∧ ∀ k, k ≠ "next_agent" →
           dict_get [("next_agent", PyStr "qa"); ("instruction", PyStr "run pytest");
                     ("reason", PyStr "new code")] k = dict_get data k.
Proof.
  apply (parse_keeps_other_keys Demo.qa_reply). vm_compute. reflexivity.
Defined.

Lemma sanitize_folds_finish_witness : sanitize_next_agent (PyStr "FiNisH") = "FINISH".
Proof. apply sanitize_folds_finish. reflexivity. Defined.

Lemma undecodable_reply_finishes_witness :
  ∃ ret,
    supervisor_node Demo.at_ceiling (LlmReplies "I think we should run tests next") "12"
    = Ok ret
    ∧ next_agent ret = Some "FINISH"
    ∧ route_after_supervisor (commit Demo.at_ceiling ret) = END.
Proof.
  destruct (undecodable_reply_finishes Demo.at_ceiling
              "I think we should run tests next" "12")
    as (ret & Hnode & Hnext & _ & _ & _ & _ & _ & Hroute).
  - reflexivity.
  - reflexivity.
  - left. vm_compute. reflexivity.
  - exists ret. split; [exact Hnode|]. split; [exact Hnext | exact Hroute].
Defined.

Lemma undecodable_reply_plans_default_witness :
  ∃ ret,
    supervisor_node (create_initial_state "fix the parser" "/repo")
      (LlmReplies "Sure, I will start with the developer.") "0" = Ok ret
    ∧ plan ret = Some (PyStr "Executar task: fix the parser")
    ∧ next_agent ret = Some "developer".
Proof.
  destruct (undecodable_reply_plans_default (create_initial_state "fix the parser" "/repo")
              "Sure, I will start with the developer." "0")
    as (ret & Hnode & Hplan & Hnext & _).
  - reflexivity.
  - left. vm_compute. reflexivity.
  - exists ret. split; [exact Hnode|]. split; [exact Hplan | exact Hnext].
Defined.

Lemma routing_phase_is_kept_witness :
  ∃ ret,
    supervisor_node Demo.at_ceiling (LlmReplies Demo.developer_reply) "12" = Ok ret
    ∧ planning_phase (commit Demo.at_ceiling ret) = false
    ∧ iteration ret = Some 13.
Proof.
  assert (Hnode : ∃ ret, supervisor_node Demo.at_ceiling (LlmReplies Demo.developer_reply)
                           "12" = Ok ret).
  { eexists. vm_compute. reflexivity. }
  destruct Hnode as [ret Hnode]. exists ret.
  destruct (routing_phase_is_kept Demo.at_ceiling ret (LlmReplies Demo.developer_reply) "12")
    as (_ & Hphase & Hit & _).
  - reflexivity.
  - simpl. lia.
  - exact Hnode.
  - split; [exact Hnode|]. split; [exact Hphase | exact Hit].
Defined.

Lemma planning_dispatches_a_worker_witness :
  ∃ ret w,
    supervisor_node (create_initial_state "task" "/repo") (LlmReplies Demo.plan_reply) "0"
    = Ok ret
    ∧ next_agent ret = Some (worker_name w).
Proof.
  assert (Hnode : ∃ ret, supervisor_node (create_initial_state "task" "/repo")
                           (LlmReplies Demo.plan_reply) "0" = Ok ret).
  { eexists. vm_compute. reflexivity. }
  destruct Hnode as [ret Hnode].
  destruct (planning_dispatches_a_worker (create_initial_state "task" "/repo") ret
              (LlmReplies Demo.plan_reply) "0") as [(w & Hnext & _) _].
  - reflexivity.
  - exact Hnode.
  - exists ret, w. split; [exact Hnode | exact Hnext].
Defined.

Lemma supervisor_node_frame_witness :
  ∃ ret,
    supervisor_node Demo.at_ceiling (LlmReplies Demo.finish_reply) "12" = Ok ret
    ∧ task ret = Some "add input validation to parse_config"
    ∧ default [] ret.(agent_outputs) = [].
Proof.
  assert (Hnode : ∃ ret, supervisor_node Demo.at_ceiling (LlmReplies Demo.finish_reply) "12"
                         = Ok ret).
  { eexists. vm_compute. reflexivity. }
  destruct Hnode as [ret Hnode]. exists ret.
  destruct (supervisor_node_frame Demo.at_ceiling ret (LlmReplies Demo.finish_reply) "12")
    as (Htask & _ & _ & _ & _ & _ & Hout & _).
  - exact Hnode.
  - split; [exact Hnode|]. split; [exact Htask | exact Hout].
Defined.

Lemma unsliceable_reason_breaks_next_call_witness :
  ∃ ret,
    supervisor_node Demo.at_ceiling (LlmReplies null_reason_reply) "12" = Ok ret
    ∧ ∃ m, supervisor_node (commit Demo.at_ceiling ret) (LlmReplies Demo.finish_reply) "13"
           = Raise (TypeError m).
Proof.
  edestruct (unsliceable_reason_breaks_next_call Demo.at_ceiling null_reason_reply "12")
    as (ret & Hnode & Hnext & _).
  - reflexivity.
  - simpl. lia.
  - reflexivity.
  - vm_compute. reflexivity.
  - reflexivity.
  - exists ret. split; [exact Hnode|]. apply Hnext.
Defined.


Lemma worker_returns_on_well_formed_files_witness :
  ∃ ret,
    worker_node docs
      (sample_state [] [] {[ "files_changed" := PyList [PyStr "config.py"] ]})
      Demo.patched "3" = Ok ret
    ∧ iteration ret = Some 1.
Proof.
  destruct (worker_returns_on_well_formed_files docs
              (sample_state [] [] {[ "files_changed" := PyList [PyStr "config.py"] ]})
              Demo.patched "3") as (ret & Hnode & Hit & _).
  - right. exists ["config.py"]. reflexivity.
  - exists ret. split; [exact Hnode | exact Hit].
Defined.

Lemma format_outputs_reads_last_six_witness :
  _format_agent_outputs
    (sample_state [] (sample_output <$> [1; 2; 3; 4; 5; 6; 7]) ∅)
  = _format_agent_outputs (sample_state [] (sample_output <$> [2; 3; 4; 5; 6; 7]) ∅).
Proof.
  destruct (format_outputs_reads_last_six
              (sample_state [] (sample_output <$> [1; 2; 3; 4; 5; 6; 7]) ∅)
              (sample_state [] (sample_output <$> [2; 3; 4; 5; 6; 7]) ∅)
              (sample_output <$> [1]) []
              (sample_output <$> [2; 3; 4; 5; 6; 7])) as [Heq _].
  - reflexivity.
  - reflexivity.
  - reflexivity.
  - exact Heq.
Defined.

Lemma empty_plans_never_finish_witness :
  match (run_task "task" "/repo" planless 8).1 with
  | Final _ => False
  | _ => True
  end.
Proof.
  destruct (empty_plans_never_finish "task" "/repo" planless 8) as [Hnever _].
  - simpl. lia.
  - intros k. eexists _, _. split; [reflexivity|].
    split; [vm_compute; reflexivity | reflexivity].
  - destruct (run_task "task" "/repo" planless 8).1 as [s| |] eqn:Hrun; [|done|done].
    exact (Hnever s eq_refl).
Defined.

Lemma routing_entries_are_numbered_witness :
  ∃ o state log history,
    run_task "task" "/repo" Demo.finishing 10 = (o, log)
    ∧ state_of o = Some state
    ∧ routing_history state = Some history
    ∧ Z.of_nat (length history) ≤ 12.
Proof.
  eexists _, _, _. 
  edestruct (routing_entries_are_numbered "task" "/repo" Demo.finishing 10)
    as (history & Hh & _ & _ & Hlen).
  - vm_compute. reflexivity.
  - reflexivity.
  - exists history. split; [vm_compute; reflexivity|]. split; [reflexivity|].
    split; [exact Hh|]. apply Hlen. simpl. lia.
Defined.

Lemma stored_lists_double_witness :
  ∃ state log,
    run_task "task" "/repo" Demo.finishing 10 = (Final state, log)
    ∧ (3 * length (default [] (agent_outputs state)) + 2 = 2 * 4 ^ dispatches log)%nat.
Proof.
  eexists _, _. split; [vm_compute; reflexivity|].
  edestruct (stored_lists_double "task" "/repo" Demo.finishing 10) as [Hout _].
  - vm_compute. reflexivity.
  - exact Hout.
Defined.


End MoreAtDefaultCeiling.

Section MoreAtLowCeiling.
#[local] Existing Instance Demo.low_host.

Lemma run_ends_within_budget_witness :
  run_task "task" "/repo" Demo.busy 8 = run_task "task" "/repo" Demo.busy node_budget
  ∧ (length (run_task "task" "/repo" Demo.busy 8).2 ≤ node_budget)%nat.
Proof.
  destruct (run_ends_within_budget "task" "/repo" Demo.busy 8) as (_ & Heq & Hlen).
  - intros ret Hret. vm_compute in Hret. injection Hret as <-. reflexivity.
  - vm_compute. lia.
  - split; [exact Heq | exact Hlen].
Defined.

End MoreAtLowCeiling.
